(** * bom-cpl-plugin.py: BOM and CPL generation for KiCad netlists

    A shallow embedding of [bom-cpl-plugin.py] (Python 3 semantics) and the
    properties of its supplier registry, part model, netlist parser and
    CPL rewriter.

    Conventions of the embedding:
    - Python [str] is [string]; the text is taken as its UTF-8 bytes, so
      byte-wise lexicographic order is code point order and a split on
      [':'] never cuts a character.  [str.upper] and [str.title] are
      modelled on the ASCII letters.
    - The attributes of a [Part] are dynamically typed; they range over
      [pyval] ([None], [str], [int]).
    - An exception is a value of [exn]; fallible code returns [result].
    - The parsed XML tree ([ElementTree.parse]) is the input of [parseXml]:
      what reading and parsing the file may raise comes before the code
      modelled here.
    - The csv module is seen at the level of rows (lists of cells), and the
      file system is a finite map from paths to the rows of a file, in
      which a file can always be opened for writing. *)

From Stdlib Require Import ZArith Lia Ascii.
From stdpp Require Import base option list strings gmap pretty sorting.

Local Open Scope string_scope.
Local Open Scope list_scope.
Local Open Scope Z_scope.

(** ** Exceptions and the error monad *)

Inductive exn : Set :=
  | KeyError | AttributeError | TypeError | IndexError
  | StopIteration | FileNotFoundError.

Inductive result (A : Type) : Type :=
  | Ok (a : A)
  | Raise (e : exn).
Arguments Ok {A} a.
Arguments Raise {A} e.

Global Instance result_ret : MRet result := fun A a => Ok a.
Global Instance result_bind : MBind result := fun A B k m =>
  match m with
  | Ok a => k a
  | Raise e => Raise e
  end.

(** ** Python values held by part attributes *)

Inductive pyval : Set :=
  | PyNone
  | PyStr (s : string)
  | PyInt (n : Z).

Definition pyval_eqb (a b : pyval) : bool :=
  match a, b with
  | PyNone, PyNone => true
  | PyStr s, PyStr t => String.eqb s t
  | PyInt n, PyInt m => Z.eqb n m
  | _, _ => false
  end.

(** Truth value of an object: [None], [''] and [0] are false. *)
Definition truthy (v : pyval) : bool :=
  match v with
  | PyNone => false
  | PyStr s => negb (String.eqb s "")
  | PyInt n => negb (Z.eqb n 0)
  end.

(** [a < b]: strings by code points, integers by value; any other pair of
    operand types is unsupported. *)
Definition py_lt (a b : pyval) : result bool :=
  match a, b with
  | PyStr s, PyStr t => Ok (String.ltb s t)
  | PyInt n, PyInt m => Ok (Z.ltb n m)
  | _, _ => Raise TypeError
  end.

(** [a + b], as used by [+=]. *)
Definition py_add (a b : pyval) : result pyval :=
  match a, b with
  | PyInt n, PyInt m => Ok (PyInt (n + m))
  | PyStr s, PyStr t => Ok (PyStr (s +:+ t))
  | _, _ => Raise TypeError
  end.

(** ** String methods *)

Definition is_lower (c : ascii) : bool :=
  let n := Ascii.nat_of_ascii c in (97 <=? n)%nat && (n <=? 122)%nat.
Definition is_upper (c : ascii) : bool :=
  let n := Ascii.nat_of_ascii c in (65 <=? n)%nat && (n <=? 90)%nat.
Definition to_upper (c : ascii) : ascii :=
  if is_lower c then Ascii.ascii_of_nat (Ascii.nat_of_ascii c - 32) else c.
Definition to_lower (c : ascii) : ascii :=
  if is_upper c then Ascii.ascii_of_nat (Ascii.nat_of_ascii c + 32) else c.

(** [s.upper()] *)
Fixpoint upper (s : string) : string :=
  match s with
  | EmptyString => EmptyString
  | String c s' => String (to_upper c) (upper s')
  end.

(** [s.title()]: a letter that follows a letter is lowered, any other
    letter is raised. *)
Fixpoint title_from (prev_cased : bool) (s : string) : string :=
  match s with
  | EmptyString => EmptyString
  | String c s' =>
      if is_lower c || is_upper c
      then String (if prev_cased then to_lower c else to_upper c) (title_from true s')
      else String c (title_from false s')
  end.
Definition title (s : string) : string := title_from false s.

(** [s.split(sep)] for a one-character separator: never empty, one more
    segment than there are separators. *)
Fixpoint split (sep : ascii) (s : string) : list string :=
  match s with
  | EmptyString => [EmptyString]
  | String c s' =>
      if Ascii.eqb c sep then EmptyString :: split sep s'
      else match split sep s' with
           | seg :: segs => String c seg :: segs
           | [] => [String c EmptyString]
           end
  end.

(** [l.pop()] as an expression: the last element; an empty list raises. *)
Definition pop {A} (l : list A) : result A :=
  match last l with
  | Some x => Ok x
  | None => Raise IndexError
  end.

(** [l[i] = v] with Python's index rule: a negative index counts from the
    end, an index outside the list raises. *)
Definition list_setitem {A} (l : list A) (i : Z) (v : A) : result (list A) :=
  let n := Z.of_nat (length l) in
  let j := if i <? 0 then i + n else i in
  if (0 <=? j) && (j <? n) then Ok (<[Z.to_nat j := v]> l) else Raise IndexError.

(** ** Supplier registry: [g_suppliers] and its lookups *)

Definition g_bomext : string := "BOM".
Definition g_cplext : string := "CPL".
Definition g_posfiles : list string := ["all-pos"; "top-pos"; "bottom-pos"].

(** One entry of [g_suppliers].  ['fields'] is an [OrderedDict] (column,
    attribute); ['cplheaders'] is a key only some entries have. *)
Record profile : Set := {
  fields : list (string * string);
  equal : list string;
  sorted : list string;
  grouped : bool;
  generatecpl : bool;
  cplheaders : option (list (Z * string))
}.

Definition Default_profile : profile := {|
  fields := [("Quantity", "Quantity");
             ("Manufacture Part Number", "PartNumber");
             ("Manufacturer", "Manufacturer");
             ("Description", "ref");
             ("Supplier Part Number", "SupplierRef");
             ("Package", "footprint")];
  equal := ["PartNumber"; "SupplierRef"];
  sorted := ["Manufacturer"; "PartNumber"];
  grouped := true;
  generatecpl := false;
  cplheaders := None
|}.

(** [g_suppliers['JLCPCB']['cplheaders']] *)
Definition JLCPCB_items : list (Z * string) :=
  [(0, "Designator"); (3, "Mid X"); (4, "Mid Y"); (5, "Rotation"); (6, "Layer")].

Definition JLCPCB_profile : profile := {|
  fields := [("Comment", "value");
             ("Designator", "ref");
             ("Footprint", "footprint");
             ("LCSC Part #", "SupplierRef")];
  equal := ["ref"];
  sorted := ["SupplierRef"];
  grouped := false;
  generatecpl := true;
  cplheaders := Some JLCPCB_items
|}.

Definition LCSC_profile : profile := {|
  fields := [("Quantity", "Quantity");
             ("Manufacture Part Number", "PartNumber");
             ("Manufacturer", "Manufacturer");
             ("Description", "ref");
             ("LCSC Part Number", "SupplierRef");
             ("Package", "footprint")];
  equal := ["PartNumber"; "SupplierRef"];
  sorted := ["Manufacturer"; "PartNumber"];
  grouped := true;
  generatecpl := false;
  cplheaders := None
|}.

Definition g_suppliers : gmap string profile :=
  <["LCSC" := LCSC_profile]>
    (<["JLCPCB" := JLCPCB_profile]>
       (<["Default" := Default_profile]> ∅)).

(** [g_suppliers[supplier]] after [supplier in g_suppliers]: only a [str]
    can be a key of the table. *)
Definition registered (supplier : pyval) : option profile :=
  match supplier with
  | PyStr s => g_suppliers !! s
  | _ => None
  end.

Definition getEqual (supplier : pyval) : list string :=
  match registered supplier with
  | Some p => equal p
  | None => equal Default_profile
  end.

Definition getSorted (supplier : pyval) : list string :=
  match registered supplier with
  | Some p => sorted p
  | None => sorted Default_profile
  end.

Definition needGrouping (supplier : pyval) : bool :=
  match registered supplier with
  | Some p => grouped p
  | None => grouped Default_profile
  end.

Definition getFields (supplier : pyval) : list (string * string) :=
  match registered supplier with
  | Some p => fields p
  | None => fields Default_profile
  end.

Definition generateCpl (supplier : pyval) : bool :=
  match registered supplier with
  | Some p => generatecpl p
  | None => generatecpl Default_profile
  end.

(** What [getHeaders] returns: the ['cplheaders'] dict of an entry, or the
    empty tuple [()] of its last line. *)
Inductive headers : Set :=
  | HeadersDict (items : list (Z * string))
  | EmptyTuple.

Definition getHeaders (supplier : pyval) : result headers :=
  match registered supplier with
  | Some p =>
      match cplheaders p with
      | Some d => Ok (HeadersDict d)
      | None => Raise KeyError
      end
  | None => Ok EmptyTuple
  end.

(** ["%s-%s.%s" % (path, post, ext)] *)
Definition getInput (path post : string) : string :=
  path +:+ "-" +:+ post +:+ "." +:+ "csv".

Definition getInputs (path : string) : list string :=
  map (getInput path) g_posfiles.

(** ["%s_%s_%s.%s" % (path, supplier.title(), post, ext)] *)
Definition getOutput (path : string) (supplier : pyval) (post : string) : result string :=
  match supplier with
  | PyStr s => Ok (path +:+ "_" +:+ title s +:+ "_" +:+ post +:+ "." +:+ "csv")
  | _ => Raise AttributeError
  end.

(** ** The parsed netlist: [xml.etree.ElementTree.Element] *)

(** An element has a tag, an attribute dict, a text ([None] when the
    element is empty) and its children in document order. *)
#[local] Set Warnings "-register-all".
Inductive Element : Set :=
  mkElement (tag : string) (attrib : list (string * string))
            (text : option string) (children : list Element).

Definition tag (e : Element) : string :=
  match e with mkElement t _ _ _ => t end.
Definition attrib (e : Element) : list (string * string) :=
  match e with mkElement _ a _ _ => a end.
Definition text (e : Element) : pyval :=
  match e with
  | mkElement _ _ (Some s) _ => PyStr s
  | mkElement _ _ None _ => PyNone
  end.
Definition children (e : Element) : list Element :=
  match e with mkElement _ _ _ c => c end.

(** [d.get(key)] on a dict with [str] keys and values. *)
Fixpoint dict_get (d : list (string * string)) (key : string) : option string :=
  match d with
  | [] => None
  | (k, v) :: d' => if String.eqb k key then Some v else dict_get d' key
  end.

(** [d[key]] *)
Definition subscript (d : list (string * string)) (key : string) : result string :=
  match dict_get d key with
  | Some v => Ok v
  | None => Raise KeyError
  end.

(** The steps of an ElementPath: [name] selects the children with that
    tag, [*] all children, [[@key="value"]] the elements whose attribute
    [key] is exactly [value]. *)
Definition path_child (name : string) (elems : list Element) : list Element :=
  flat_map (fun e => List.filter (fun c => String.eqb (tag c) name) (children e)) elems.
Definition path_star (elems : list Element) : list Element :=
  flat_map children elems.
Definition path_attrib (key value : string) (elems : list Element) : list Element :=
  List.filter (fun e => match dict_get (attrib e) key with
                        | Some v => String.eqb v value
                        | None => false
                        end) elems.

(** [elem.find(name)]: the first child with that tag. *)
Definition find (elem : Element) (name : string) : option Element :=
  head (path_child name [elem]).

(** [component.find('./fields/field[@name="Supplier"]')] *)
Definition find_Supplier (component : Element) : option Element :=
  head (path_attrib "name" "Supplier"
          (path_child "field" (path_child "fields" [component]))).

(** [root.findall('./components/')]: a path that ends in [/] selects all
    children of the last step. *)
Definition findall_components (root : Element) : list Element :=
  path_star (path_child "components" [root]).

(** ** class Part *)

Record Part : Set := {
  ref : pyval;
  value : pyval;
  footprint : pyval;
  Supplier : pyval;
  Manufacturer : pyval;
  PartNumber : pyval;
  SupplierRef : pyval;
  Quantity : pyval
}.

(** [getattr(part, name)] on the data attributes of a part, the only names
    the registry mentions. *)
Definition getattr (p : Part) (name : string) : result pyval :=
  if String.eqb name "ref" then Ok (ref p)
  else if String.eqb name "value" then Ok (value p)
  else if String.eqb name "footprint" then Ok (footprint p)
  else if String.eqb name "Supplier" then Ok (Supplier p)
  else if String.eqb name "Manufacturer" then Ok (Manufacturer p)
  else if String.eqb name "PartNumber" then Ok (PartNumber p)
  else if String.eqb name "SupplierRef" then Ok (SupplierRef p)
  else if String.eqb name "Quantity" then Ok (Quantity p)
  else Raise AttributeError.

(** [setattr(part, name, v)]; [setCustomFields] calls it with the attribute
    names of a ['fields'] table only, all of them attributes of the record. *)
Definition setattr (p : Part) (name : string) (v : pyval) : Part :=
  if String.eqb name "ref" then
    {| ref := v; value := value p; footprint := footprint p; Supplier := Supplier p;
       Manufacturer := Manufacturer p; PartNumber := PartNumber p;
       SupplierRef := SupplierRef p; Quantity := Quantity p |}
  else if String.eqb name "value" then
    {| ref := ref p; value := v; footprint := footprint p; Supplier := Supplier p;
       Manufacturer := Manufacturer p; PartNumber := PartNumber p;
       SupplierRef := SupplierRef p; Quantity := Quantity p |}
  else if String.eqb name "footprint" then
    {| ref := ref p; value := value p; footprint := v; Supplier := Supplier p;
       Manufacturer := Manufacturer p; PartNumber := PartNumber p;
       SupplierRef := SupplierRef p; Quantity := Quantity p |}
  else if String.eqb name "Supplier" then
    {| ref := ref p; value := value p; footprint := footprint p; Supplier := v;
       Manufacturer := Manufacturer p; PartNumber := PartNumber p;
       SupplierRef := SupplierRef p; Quantity := Quantity p |}
  else if String.eqb name "Manufacturer" then
    {| ref := ref p; value := value p; footprint := footprint p; Supplier := Supplier p;
       Manufacturer := v; PartNumber := PartNumber p;
       SupplierRef := SupplierRef p; Quantity := Quantity p |}
  else if String.eqb name "PartNumber" then
    {| ref := ref p; value := value p; footprint := footprint p; Supplier := Supplier p;
       Manufacturer := Manufacturer p; PartNumber := v;
       SupplierRef := SupplierRef p; Quantity := Quantity p |}
  else if String.eqb name "SupplierRef" then
    {| ref := ref p; value := value p; footprint := footprint p; Supplier := Supplier p;
       Manufacturer := Manufacturer p; PartNumber := PartNumber p;
       SupplierRef := v; Quantity := Quantity p |}
  else if String.eqb name "Quantity" then
    {| ref := ref p; value := value p; footprint := footprint p; Supplier := Supplier p;
       Manufacturer := Manufacturer p; PartNumber := PartNumber p;
       SupplierRef := SupplierRef p; Quantity := v |}
  else p.

(** A method of [str] called on an attribute value: [None] has none. *)
Definition as_str (v : pyval) : result string :=
  match v with
  | PyStr s => Ok s
  | _ => Raise AttributeError
  end.

(** [footprint.text.split(':').pop()] *)
Definition footprint_name (v : pyval) : result pyval :=
  s ← as_str v;
  seg ← pop (split ":" s);
  Ok (PyStr seg).

(** The three reads of [Part.__init__]: [value], [footprint], [Supplier]. *)
Definition init_value (component : Element) : pyval :=
  match find component "value" with
  | Some e => text e
  | None => PyStr ""
  end.

Definition init_footprint (component : Element) : result pyval :=
  match find component "footprint" with
  | Some e => footprint_name (text e)
  | None => Ok (PyStr "")
  end.

Definition init_Supplier (component : Element) : result pyval :=
  match find_Supplier component with
  | Some e => s ← as_str (text e); Ok (PyStr (upper s))
  | None => Ok PyNone
  end.

(** [Part.__init__] *)
Definition Part_init (component : Element) : result Part :=
  r ← subscript (attrib component) "ref";
  let v := init_value component in
  fp ← init_footprint component;
  sup ← init_Supplier component;
  Ok {| ref := PyStr r; value := v; footprint := fp; Supplier := sup;
        Manufacturer := PyStr ""; PartNumber := PyNone; SupplierRef := PyNone;
        Quantity := PyInt 1 |}.

(** [Part.isvalid] *)
Definition isvalid (self : Part) : bool :=
  negb (pyval_eqb (Supplier self) PyNone) && negb (pyval_eqb (Supplier self) (PyStr "")).

(** A generator expression [(getattr(part, a) for a in attrs)] evaluates to
    a new generator object; nothing is read from the part before the
    generator is iterated.  Generators inherit [==] from [object], which is
    identity, and define no ordering. *)
Record generator : Set := {
  gen_id : nat;
  gen_part : Part;
  gen_attrs : list string
}.

Definition generator_eq (g h : generator) : bool := Nat.eqb (gen_id g) (gen_id h).
Definition generator_lt (g h : generator) : result bool := Raise TypeError.

(** [all(gen)]: iterates the generator up to the first false value. *)
Fixpoint all (g_part : Part) (g_attrs : list string) : result bool :=
  match g_attrs with
  | [] => Ok true
  | a :: rest => v ← getattr g_part a; if truthy v then all g_part rest else Ok false
  end.

(** [Part.__eq__]: both operands of [==] are alive at the comparison, so
    they are two objects, numbered here in the order they are made. *)
Definition Part_eq (self other : Part) : bool :=
  if negb (pyval_eqb (Supplier self) (Supplier other)) then false
  else
    let attrs := getEqual (Supplier self) in
    generator_eq {| gen_id := 0; gen_part := self; gen_attrs := attrs |}
                 {| gen_id := 1; gen_part := other; gen_attrs := attrs |}.

(** [Part.__lt__] *)
Definition Part_lt (self other : Part) : result bool :=
  if negb (pyval_eqb (Supplier self) (Supplier other))
  then py_lt (Supplier self) (Supplier other)
  else
    let attrs := getSorted (Supplier self) in
    generator_lt {| gen_id := 0; gen_part := self; gen_attrs := attrs |}
                 {| gen_id := 1; gen_part := other; gen_attrs := attrs |}.

(** [x in l] and [x not in l] on a list of values. *)
Definition py_in (x : pyval) (l : list pyval) : bool := existsb (pyval_eqb x) l.

(** The loop of [setCustomFields] over the children of [fields]. *)
Fixpoint set_fields (self : Part) (fs : list Element) : result Part :=
  match fs with
  | [] => Ok self
  | f :: rest =>
      name ← subscript (attrib f) "name";
      let self' :=
        if existsb (String.eqb name) (map snd (getFields (Supplier self)))
        then setattr self name (text f) else self in
      set_fields self' rest
  end.

(** [Part.setCustomFields]: returns the part as mutated, the supplier list
    as mutated and the boolean the method returns.  Iterating [None] (no
    [fields] child) is a [TypeError]. *)
Definition setCustomFields (self : Part) (fields : option Element)
    (suppliers : list pyval) : result (Part * list pyval * bool) :=
  match fields with
  | None => Raise TypeError
  | Some fs =>
      self' ← set_fields self (children fs);
      ok ← all self' (getEqual (Supplier self'));
      if ok : bool then
        let suppliers' :=
          if py_in (Supplier self') suppliers then suppliers
          else suppliers ++ [Supplier self'] in
        Ok (self', suppliers', true)
      else Ok (self', suppliers, false)
  end.

(** ** parseXml *)

(** [range(n)] in a [for]: the number of iterations. *)
Definition py_range (v : pyval) : result nat :=
  match v with
  | PyInt n => Ok (Z.to_nat n)
  | _ => Raise TypeError
  end.

Definition set_Quantity (p : Part) (q : pyval) : Part := setattr p "Quantity" q.

(** The grouped branch: [exist = next((p for p in parts if p == part), None)],
    then [parts.append(part)] or [exist.Quantity += part.Quantity].  The
    object found is in [parts] once (a grouped part is appended once), so
    the mutation is the update of that one entry. *)
Fixpoint group_into (parts : list Part) (part : Part) : result (list Part) :=
  match parts with
  | [] => Ok [part]
  | p :: rest =>
      if Part_eq p part then
        q ← py_add (Quantity p) (Quantity part);
        Ok (set_Quantity p q :: rest)
      else
        rest' ← group_into rest part;
        Ok (p :: rest')
  end.

(** The state of the loop: [suppliers], [parts], [missings]. *)
Record parsed : Set := {
  suppliers : list pyval;
  parts : list Part;
  missings : list pyval
}.

(** One iteration of the loop of [parseXml]. *)
Definition parse_component (st : parsed) (f : Element) : result parsed :=
  part ← Part_init f;
  if negb (isvalid part) then
    Ok {| suppliers := suppliers st; parts := parts st;
          missings := missings st ++ [ref part] |}
  else
    r ← setCustomFields part (find f "fields") (suppliers st);
    let '(part, sups, accepted) := r in
    if negb accepted then
      Ok {| suppliers := sups; parts := parts st;
            missings := missings st ++ [ref part] |}
    else if needGrouping (Supplier part) then
      ps ← group_into (parts st) part;
      Ok {| suppliers := sups; parts := ps; missings := missings st |}
    else
      n ← py_range (Quantity part);
      Ok {| suppliers := sups; parts := parts st ++ replicate n part;
            missings := missings st |}.

Fixpoint parse_components (st : parsed) (fs : list Element) : result parsed :=
  match fs with
  | [] => Ok st
  | f :: rest => st' ← parse_component st f; parse_components st' rest
  end.

Definition parseXml (root : Element) : result parsed :=
  parse_components {| suppliers := []; parts := []; missings := [] |}
                   (findall_components root).

(** ** sorted *)

(** [sorted(l)] is a stable sort that only calls [<], with the element
    being placed on the left, and lets an exception of [<] through.  It is
    modelled as the insertion sort it is on short lists. *)
Section Sorted.
Context {A : Type} (lt : A → A → result bool).

Fixpoint insort (x : A) (l : list A) : result (list A) :=
  match l with
  | [] => Ok [x]
  | y :: ys =>
      b ← lt x y;
      if b : bool then Ok (x :: y :: ys)
      else zs ← insort x ys; Ok (y :: zs)
  end.

Fixpoint sort_into (acc l : list A) : result (list A) :=
  match l with
  | [] => Ok acc
  | x :: rest => acc' ← insort x acc; sort_into acc' rest
  end.

Definition py_sorted (l : list A) : result (list A) := sort_into [] l.
End Sorted.

(** ** Files *)

(** The file system: the rows of the csv file at each path. *)
Abbreviation files := (gmap string (list (list string))).

(** Code that reads and writes files and may raise: the files as they are
    left, and the outcome. *)
Definition io (A : Type) : Type := files → files * result A.

Global Instance io_ret : MRet io := fun A a fs => (fs, Ok a).
Global Instance io_bind : MBind io := fun A B k m fs =>
  match m fs with
  | (fs', Ok a) => k a fs'
  | (fs', Raise e) => (fs', Raise e)
  end.

Definition lift {A} (m : result A) : io A := fun fs => (fs, m).

(** [os.path.isfile(path)] *)
Definition isfile (fs : files) (path : string) : bool :=
  match fs !! path with Some _ => true | None => false end.

(** ** copyCsv and rewriteCsv *)

(** [for i, value in headers.items(): header[i] = value] *)
Fixpoint assign_headers (items : list (Z * string)) (header : list string)
    : result (list string) :=
  match items with
  | [] => Ok header
  | (i, v) :: rest => header' ← list_setitem header i v; assign_headers rest header'
  end.

(** [copyCsv]: [open(input)] needs the file; [open(output, 'w')] creates
    or empties the output before anything is read; the first row read is
    the header; the header as assigned and then the other rows are
    written.  What is written before an exception stays in the file. *)
Definition copyCsv (input output : string) (hs : headers) : io () := fun fs =>
  match fs !! input with
  | None => (fs, Raise FileNotFoundError)
  | Some _ =>
      let fs1 := <[output := []]> fs in
      match fs1 !! input with
      | Some (header :: rows) =>
          match hs with
          | EmptyTuple => (fs1, Raise AttributeError)
          | HeadersDict items =>
              match assign_headers items header with
              | Ok header' => (<[output := header' :: rows]> fs1, Ok ())
              | Raise e => (fs1, Raise e)
              end
          end
      | _ => (fs1, Raise StopIteration)
      end
  end.

(** The inner loop of [rewriteCsv]: the body run on the first input that
    is a file, then [break]; the value is [rewrited[supplier]] when the
    loop is left. *)
Definition rewrite_from (input path : string) (supplier : pyval) : io bool :=
  output ← lift (getOutput path supplier g_cplext);
  hs ← lift (getHeaders supplier);
  _ ← copyCsv input output hs;
  mret true.

Fixpoint probe (inputs : list string) (path : string) (supplier : pyval) : io bool :=
  match inputs with
  | [] => mret false
  | input :: rest => fun fs =>
      if isfile fs input then rewrite_from input path supplier fs
      else probe rest path supplier fs
  end.

(** [d[key] = v] on an insertion-ordered dict. *)
Fixpoint dict_set {V} (d : list (pyval * V)) (key : pyval) (v : V) : list (pyval * V) :=
  match d with
  | [] => [(key, v)]
  | (k, w) :: d' => if pyval_eqb k key then (k, v) :: d' else (k, w) :: dict_set d' key v
  end.

Fixpoint rewrite_suppliers (sups : list pyval) (path : string)
    (rewrited : list (pyval * bool)) : io (list (pyval * bool)) :=
  match sups with
  | [] => mret rewrited
  | supplier :: rest =>
      if generateCpl supplier then
        let rewrited := dict_set rewrited supplier false in
        found ← probe (getInputs path) path supplier;
        rewrite_suppliers rest path
          (if found : bool then dict_set rewrited supplier true else rewrited)
      else rewrite_suppliers rest path rewrited
  end.

Definition rewriteCsv (sups : list pyval) (path : string) : io (list (pyval * bool)) :=
  rewrite_suppliers sups path [].

(** ** writeCsv *)

(** A cell as the csv writer prints it: [None] is the empty cell, anything
    else its [str]. *)
Definition csv_cell (v : pyval) : string :=
  match v with
  | PyNone => ""
  | PyStr s => s
  | PyInt n => pretty n
  end.

(** [row[key] = getattr(part, value)] for the items of the field table;
    the writer prints the cells in the order of the table. *)
Fixpoint make_row (fieldsname : list (string * string)) (part : Part)
    : result (list string) :=
  match fieldsname with
  | [] => Ok []
  | (_, a) :: rest =>
      v ← getattr part a;
      cells ← make_row rest part;
      Ok (csv_cell v :: cells)
  end.

(** [while len(parts) and parts[0].Supplier == supplier: part = parts.pop(0) ...]:
    the rows written and the parts left. *)
Fixpoint take_rows (fieldsname : list (string * string)) (supplier : pyval)
    (ps : list Part) : result (list (list string) * list Part) :=
  match ps with
  | [] => Ok ([], [])
  | part :: rest =>
      if pyval_eqb (Supplier part) supplier then
        row ← make_row fieldsname part;
        r ← take_rows fieldsname supplier rest;
        Ok (row :: r.1, r.2)
      else Ok ([], ps)
  end.

Fixpoint writeCsv (sups : list pyval) (ps : list Part) (path : string) : io () :=
  match sups with
  | [] => mret ()
  | supplier :: rest => fun fs =>
      (file ← lift (getOutput path supplier g_bomext);
       let columns := map fst (getFields supplier) in
       r ← lift (take_rows (getFields supplier) supplier ps);
       _ ← (fun fs => (<[file := columns :: r.1]> fs, Ok ()));
       writeCsv rest r.2 path) fs
  end.

(** ** The program *)

(** [sep.join(l)]: every item has to be a [str]. *)
Fixpoint join (sep : string) (l : list pyval) : result string :=
  match l with
  | [] => Ok ""
  | x :: rest =>
      s ← match x with PyStr s => Ok s | _ => Raise TypeError end;
      r ← join sep rest;
      Ok (match rest with [] => s | _ => s +:+ sep +:+ r end)
  end.

(** [for supplier in sups: print(... getOutput(path, supplier, post))]:
    the calls of a loop of the report. *)
Fixpoint each_output (path post : string) (sups : list pyval) : result () :=
  match sups with
  | [] => Ok ()
  | supplier :: rest => _ ← getOutput path supplier post; each_output path post rest
  end.

(** The suppliers whose status in [rewrited] is true. *)
Definition rewritten (rewrited : list (pyval * bool)) : list pyval :=
  map fst (List.filter snd rewrited).

(** What [__main__] does with the parsed netlist [root] and the output
    prefix [path].  Of the report the calls that can raise are kept: the
    output path of each supplier, the [join] of the ignored references
    when there are some, the output path of each CPL written.  The value
    is what the report is made from: the suppliers, the ignored references
    and the status of each CPL. *)
Definition main (root : Element) (path : string)
    : io (list pyval * list pyval * list (pyval * bool)) :=
  r ← lift (parseXml root);
  ss ← lift (py_sorted py_lt (suppliers r));
  ps ← lift (py_sorted Part_lt (parts r));
  _ ← writeCsv ss ps path;
  _ ← lift (each_output path g_bomext (suppliers r));
  _ ← lift (match missings r with [] => Ok "" | _ => join ", " (missings r) end);
  rewrited ← rewriteCsv (suppliers r) path;
  _ ← lift (each_output path g_cplext (rewritten rewrited));
  mret (suppliers r, missings r, rewrited).

(** Whether the character occurs in the text. *)
Fixpoint occurs (c : ascii) (s : string) : bool :=
  match s with
  | EmptyString => false
  | String a s' => Ascii.eqb a c || occurs c s'
  end.


(** ** Sample netlists *)

Definition xml_field (name txt : string) : Element :=
  mkElement "field" [("name", name)] (Some txt) [].
Definition xml_fields (fs : list Element) : Element :=
  mkElement "fields" [] None fs.
Definition xml_comp (r : string) (kids : list Element) : Element :=
  mkElement "comp" [("ref", r)] None kids.
Definition xml_export (comps : list Element) : Element :=
  mkElement "export" [] None [mkElement "components" [] None comps].

(** A resistor ordered from LCSC, with reference [r]. *)
Definition lcsc_resistor (r : string) : Element :=
  xml_comp r [mkElement "value" [] (Some "10k") [];
              mkElement "footprint" [] (Some "Resistor_SMD:R_0603") [];
              xml_fields [xml_field "Supplier" "lcsc";
                          xml_field "Manufacturer" "Yageo";
                          xml_field "PartNumber" "RC0603FR-0710KL";
                          xml_field "SupplierRef" "C98220"]].

(** The part the parser builds from it. *)
Definition lcsc_resistor_part (r : string) : Part :=
  {| ref := PyStr r; value := PyStr "10k"; footprint := PyStr "R_0603";
     Supplier := PyStr "LCSC"; Manufacturer := PyStr "Yageo";
     PartNumber := PyStr "RC0603FR-0710KL"; SupplierRef := PyStr "C98220";
     Quantity := PyInt 1 |}.

(** A capacitor ordered from LCSC, by another manufacturer. *)
Definition lcsc_capacitor (r : string) : Element :=
  xml_comp r [mkElement "value" [] (Some "100n") [];
              mkElement "footprint" [] (Some "Capacitor_SMD:C_0603") [];
              xml_fields [xml_field "Supplier" "lcsc";
                          xml_field "Manufacturer" "Samsung";
                          xml_field "PartNumber" "CL10B104KB8NNNC";
                          xml_field "SupplierRef" "C1591"]].

Definition lcsc_capacitor_part (r : string) : Part :=
  {| ref := PyStr r; value := PyStr "100n"; footprint := PyStr "C_0603";
     Supplier := PyStr "LCSC"; Manufacturer := PyStr "Samsung";
     PartNumber := PyStr "CL10B104KB8NNNC"; SupplierRef := PyStr "C1591";
     Quantity := PyInt 1 |}.

(** A part ordered from JLCPCB. *)
Definition jlcpcb_chip (r : string) : Element :=
  xml_comp r [mkElement "value" [] (Some "NE555") [];
              mkElement "footprint" [] (Some "Package_SO:SOIC-8") [];
              xml_fields [xml_field "Supplier" "Jlcpcb";
                          xml_field "SupplierRef" "C7593"]].

Definition jlcpcb_chip_part (r : string) : Part :=
  {| ref := PyStr r; value := PyStr "NE555"; footprint := PyStr "SOIC-8";
     Supplier := PyStr "JLCPCB"; Manufacturer := PyStr "";
     PartNumber := PyNone; SupplierRef := PyStr "C7593";
     Quantity := PyInt 1 |}.


(** A component whose [Supplier] field is there and empty:
    [<field name="Supplier"></field>] parses to an element without text. *)
Definition empty_Supplier_component : Element :=
  xml_comp "U2" [xml_fields [mkElement "field" [("name", "Supplier")] None []]].

(** A component without custom fields. *)
Definition bare_component : Element :=
  xml_comp "H1" [mkElement "value" [] (Some "MountingHole") []].

(** The cells a header row needs for the assignments of an override
    table with indices from 0: the largest index plus one. *)
Definition required_cells (items : list (Z * string)) : Z :=
  foldr (fun iv m => Z.max (iv.1 + 1) m) 0 items.

(** The header as the assignments leave it when every index is in range. *)
Definition overridden (items : list (Z * string)) (header : list string) : list string :=
  foldl (fun h iv => <[Z.to_nat iv.1 := iv.2]> h) header items.

(** Position files next to the prefix [board]: no [all-pos] file, a
    [top-pos] and a [bottom-pos] file. *)
Definition top_pos_rows : list (list string) :=
  [["Ref"; "Val"; "Package"; "PosX"; "PosY"; "Rot"; "Side"];
   ["U1"; "NE555"; "SOIC-8"; "10.0"; "20.0"; "90.0"; "top"]].
Definition bottom_pos_rows : list (list string) :=
  [["Ref"; "Val"; "Package"; "PosX"; "PosY"; "Rot"; "Side"];
   ["C9"; "100n"; "C_0603"; "11.0"; "21.0"; "0.0"; "bottom"]].
Definition board_files : files :=
  <["board-top-pos.csv" := top_pos_rows]>
    (<["board-bottom-pos.csv" := bottom_pos_rows]> ∅).

(** A position file whose header has six cells. *)
Definition short_pos_rows : list (list string) :=
  [["Ref"; "Val"; "Package"; "PosX"; "PosY"; "Rot"];
   ["U1"; "NE555"; "SOIC-8"; "10.0"; "20.0"; "90.0"]].
Definition short_files : files := <["board-all-pos.csv" := short_pos_rows]> ∅.


(** ** Notions used in the statements *)

Global Instance pyval_eq_dec : EqDecision pyval.
Proof. solve_decision. Defined.

(** The element looked up is there and has no text. *)
Definition without_text (o : option Element) : Prop :=
  ∃ e, o = Some e ∧ text e = PyNone.

(** The value is a [str]. *)
Definition is_str (v : pyval) : Prop := ∃ s, v = PyStr s.

(** The attribute names a field table lets [setCustomFields] assign. *)
Definition assignable (supplier : pyval) (name : string) : bool :=
  existsb (String.eqb name) (map snd (getFields supplier)).

(** The part the constructor builds from [lcsc_resistor r], before its
    custom fields are read. *)
Definition lcsc_resistor_new (r : string) : Part :=
  {| ref := PyStr r; value := PyStr "10k"; footprint := PyStr "R_0603";
     Supplier := PyStr "LCSC"; Manufacturer := PyStr "";
     PartNumber := PyNone; SupplierRef := PyNone; Quantity := PyInt 1 |}.

(** What [parseXml] keeps true of its three lists: the suppliers are
    listed once; every part kept is valid, has its equality keys true and
    its supplier listed; every supplier listed has a part. *)
Definition consistent (st : parsed) : Prop :=
  NoDup (suppliers st)
  ∧ (∀ p, p ∈ parts st →
       isvalid p = true
       ∧ is_str (Supplier p)
       ∧ all p (getEqual (Supplier p)) = Ok true
       ∧ Supplier p ∈ suppliers st)
  ∧ (∀ s, s ∈ suppliers st → ∃ p, p ∈ parts st ∧ Supplier p = s).

(** The order of two parts of different suppliers: by the names. *)
Definition supplier_before (p q : Part) : Prop :=
  ∃ s t, Supplier p = PyStr s ∧ Supplier q = PyStr t ∧ String.ltb s t = true.

(** The [field] children of the [fields] children of a component, in
    document order: the elements the path [./fields/field] goes through. *)
Definition field_elements (component : Element) : list Element :=
  flat_map (fun fs => List.filter (fun f => String.eqb (tag f) "field") (children fs))
    (List.filter (fun c => String.eqb (tag c) "fields") (children component)).


(** * Properties *)

(** ** The registry *)

Lemma registered_Default : registered (PyStr "Default") = Some Default_profile.
Proof. reflexivity. Qed.

Lemma registered_JLCPCB : registered (PyStr "JLCPCB") = Some JLCPCB_profile.
Proof. reflexivity. Qed.

Lemma registered_LCSC : registered (PyStr "LCSC") = Some LCSC_profile.
Proof. reflexivity. Qed.

Lemma registered_other (vendor : string) :
  vendor ≠ "Default" → vendor ≠ "JLCPCB" → vendor ≠ "LCSC" →
  registered (PyStr vendor) = None.
Proof.
  intros HD HJ HL. unfold registered, g_suppliers.
  rewrite !lookup_insert_ne by congruence. apply lookup_empty.
Qed.

(** The keys of the table are the three names. *)
Lemma registered_inv (supplier : pyval) (p : profile) :
  registered supplier = Some p →
  (supplier = PyStr "Default" ∧ p = Default_profile)
  ∨ (supplier = PyStr "JLCPCB" ∧ p = JLCPCB_profile)
  ∨ (supplier = PyStr "LCSC" ∧ p = LCSC_profile).
Proof.
  destruct supplier as [|s|n]; simpl; try discriminate.
  unfold g_suppliers. intros H.
  destruct (decide (s = "LCSC")) as [->|HL].
  { rewrite lookup_insert_eq in H. right; right. split; congruence. }
  rewrite lookup_insert_ne in H by congruence.
  destruct (decide (s = "JLCPCB")) as [->|HJ].
  { rewrite lookup_insert_eq in H. right; left. split; congruence. }
  rewrite lookup_insert_ne in H by congruence.
  destruct (decide (s = "Default")) as [->|HD].
  { rewrite lookup_insert_eq in H. left. split; congruence. }
  rewrite lookup_insert_ne, lookup_empty in H by congruence. discriminate.
Qed.

(** JLCPCB is the one supplier with a CPL. *)
Lemma generateCpl_inv (supplier : pyval) :
  generateCpl supplier = true → supplier = PyStr "JLCPCB".
Proof.
  unfold generateCpl. destruct (registered supplier) as [p|] eqn:E; [|discriminate].
  apply registered_inv in E as [[-> ->]|[[-> ->]|[-> ->]]]; simpl; congruence.
Qed.

(** C6: a vendor name other than Default, JLCPCB and LCSC gets the fields,
    the equality keys, the sort keys and the grouping flag of the Default
    profile, and no CPL. *)
Theorem unregistered_vendor_gets_Default (vendor : string) :
  vendor ≠ "Default" → vendor ≠ "JLCPCB" → vendor ≠ "LCSC" →
  getFields (PyStr vendor) = fields Default_profile
  ∧ getEqual (PyStr vendor) = equal Default_profile
  ∧ getSorted (PyStr vendor) = sorted Default_profile
  ∧ needGrouping (PyStr vendor) = grouped Default_profile
  ∧ generateCpl (PyStr vendor) = false.
Proof.
  intros HD HJ HL.
  unfold getFields, getEqual, getSorted, needGrouping, generateCpl.
  rewrite (registered_other vendor HD HJ HL). repeat split; reflexivity.
Qed.

Lemma unregistered_vendor_gets_Default_witness :
  getFields (PyStr "MOUSER") = fields Default_profile
  ∧ getEqual (PyStr "MOUSER") = ["PartNumber"; "SupplierRef"]
  ∧ getSorted (PyStr "MOUSER") = ["Manufacturer"; "PartNumber"]
  ∧ needGrouping (PyStr "MOUSER") = true
  ∧ generateCpl (PyStr "MOUSER") = false.
Proof.
  apply (unregistered_vendor_gets_Default "MOUSER"); discriminate.
Defined.

(** The paths and the names of suppliers on examples. *)
Example getOutput_jlcpcb :
  getOutput "out/board" (PyStr "jlcpcb") g_bomext = Ok "out/board_Jlcpcb_BOM.csv".
Proof. reflexivity. Qed.

Example getInputs_board :
  getInputs "b" = ["b-all-pos.csv"; "b-top-pos.csv"; "b-bottom-pos.csv"].
Proof. reflexivity. Qed.

Example upper_lcsc : upper "Lcsc-1z" = "LCSC-1Z".
Proof. reflexivity. Qed.


(** [getHeaders] on the suppliers it has an answer for. *)
Lemma getHeaders_JLCPCB : getHeaders (PyStr "JLCPCB") = Ok (HeadersDict JLCPCB_items).
Proof. reflexivity. Qed.

Lemma getHeaders_unregistered (vendor : string) :
  vendor ≠ "Default" → vendor ≠ "JLCPCB" → vendor ≠ "LCSC" →
  getHeaders (PyStr vendor) = Ok EmptyTuple.
Proof.
  intros HD HJ HL. unfold getHeaders.
  by rewrite (registered_other vendor HD HJ HL).
Qed.

Lemma getHeaders_generateCpl (supplier : pyval) :
  generateCpl supplier = true → ∃ items, getHeaders supplier = Ok (HeadersDict items).
Proof. intros ->%generateCpl_inv. eexists. apply getHeaders_JLCPCB. Qed.

(** C3: [getHeaders] is not total.  LCSC and Default are registered,
    generate no CPL and have no ['cplheaders'] entry: the lookup raises
    [KeyError] where the claim has an empty mapping. *)
Theorem getHeaders_KeyError_without_cplheaders :
  generateCpl (PyStr "LCSC") = false
  ∧ getHeaders (PyStr "LCSC") = Raise KeyError
  ∧ generateCpl (PyStr "Default") = false
  ∧ getHeaders (PyStr "Default") = Raise KeyError.
Proof. repeat split; reflexivity. Qed.

(** ** Splitting the footprint *)

Lemma split_nonempty (sep : ascii) (s : string) : split sep s ≠ [].
Proof.
  destruct s as [|a s]; simpl; [discriminate|].
  destruct (Ascii.eqb a sep); [discriminate|].
  destruct (split sep s); discriminate.
Qed.

Lemma split_no_sep (sep : ascii) (s : string) :
  occurs sep s = false → split sep s = [s].
Proof.
  induction s as [|a s IH]; simpl; [reflexivity|].
  intros [Ha Hs]%orb_false_iff. rewrite Ha, (IH Hs). reflexivity.
Qed.

Lemma split_app (sep : ascii) (pre post : string) :
  split sep (pre +:+ String sep post) = split sep pre ++ split sep post.
Proof.
  induction pre as [|a pre IH]; simpl.
  - rewrite Ascii.eqb_refl. reflexivity.
  - destruct (Ascii.eqb a sep); simpl; [by rewrite IH|].
    rewrite IH. pose proof (split_nonempty sep pre) as Hne.
    destruct (split sep pre); [done|reflexivity].
Qed.

Lemma pop_split_no_sep (sep : ascii) (s : string) :
  occurs sep s = false → pop (split sep s) = Ok s.
Proof. intros H. rewrite (split_no_sep _ _ H). reflexivity. Qed.

Lemma pop_split_app (sep : ascii) (pre post : string) :
  occurs sep post = false → pop (split sep (pre +:+ String sep post)) = Ok post.
Proof.
  intros H. rewrite split_app, (split_no_sep _ _ H).
  unfold pop. rewrite last_snoc. reflexivity.
Qed.

(** [split] followed by [pop] never raises. *)
Lemma pop_split_ok (sep : ascii) (s : string) : ∃ seg, pop (split sep s) = Ok seg.
Proof.
  unfold pop. pose proof (split_nonempty sep s) as Hne.
  destruct (split sep s) as [|x l] using rev_ind; [done|].
  rewrite last_snoc. eauto.
Qed.

(** ** Part.__init__ *)

(** The constructor returns a part when the component has a [ref] and the
    two texts it calls a method on are there. *)
Lemma Part_init_ok (component : Element) (r : string) (fp sup : pyval) :
  dict_get (attrib component) "ref" = Some r →
  init_footprint component = Ok fp →
  init_Supplier component = Ok sup →
  Part_init component
  = Ok {| ref := PyStr r; value := init_value component; footprint := fp;
          Supplier := sup; Manufacturer := PyStr ""; PartNumber := PyNone;
          SupplierRef := PyNone; Quantity := PyInt 1 |}.
Proof.
  intros Hr Hf Hs. unfold Part_init, subscript. rewrite Hr. simpl.
  rewrite Hf. simpl. rewrite Hs. reflexivity.
Qed.

(** C10: the footprint of a part is the text of the [footprint] child
    itself when the text has no colon, and the text after the last colon
    when it has one. *)
Theorem footprint_is_last_segment (component e : Element) (r t : string) (sup : pyval) :
  dict_get (attrib component) "ref" = Some r →
  init_Supplier component = Ok sup →
  find component "footprint" = Some e →
  text e = PyStr t →
  ∃ p, Part_init component = Ok p
       ∧ (occurs ":" t = false → footprint p = PyStr t)
       ∧ (∀ pre post, t = pre +:+ String ":" post → occurs ":" post = false →
            footprint p = PyStr post).
Proof.
  intros Hr Hs He Ht.
  destruct (pop_split_ok ":" t) as [seg Hseg].
  assert (Hf : init_footprint component = Ok (PyStr seg)).
  { unfold init_footprint. rewrite He, Ht. unfold footprint_name. simpl.
    rewrite Hseg. reflexivity. }
  eexists. split; [apply (Part_init_ok _ _ _ _ Hr Hf Hs)|]. simpl. split.
  - intros Hno. rewrite (pop_split_no_sep _ _ Hno) in Hseg. congruence.
  - intros pre post -> Hno. rewrite (pop_split_app _ _ _ Hno) in Hseg. congruence.
Qed.

Lemma footprint_is_last_segment_witness :
  ∃ p, Part_init (mkElement "comp" [("ref", "R1")] None
                    [mkElement "footprint" [] (Some "Resistor_SMD:R_0603") []]) = Ok p
       ∧ (occurs ":" "Resistor_SMD:R_0603" = false → footprint p = PyStr "Resistor_SMD:R_0603")
       ∧ (∀ pre post, "Resistor_SMD:R_0603" = pre +:+ String ":" post →
            occurs ":" post = false → footprint p = PyStr post).
Proof.
  apply (footprint_is_last_segment
           (mkElement "comp" [("ref", "R1")] None
              [mkElement "footprint" [] (Some "Resistor_SMD:R_0603") []])
           (mkElement "footprint" [] (Some "Resistor_SMD:R_0603") [])
           "R1" "Resistor_SMD:R_0603" PyNone); reflexivity.
Defined.

Example footprint_no_colon :
  init_footprint (mkElement "comp" [("ref", "R1")] None
                    [mkElement "footprint" [] (Some "R_0603") []])
  = Ok (PyStr "R_0603").
Proof. reflexivity. Qed.

Example footprint_two_colons :
  init_footprint (mkElement "comp" [("ref", "R1")] None
                    [mkElement "footprint" [] (Some "a:b:R_0603") []])
  = Ok (PyStr "R_0603").
Proof. reflexivity. Qed.

(** ** Finding the Supplier field *)

Lemma path_child_In (name : string) (elems : list Element) (c : Element) :
  In c (path_child name elems) ↔ ∃ e, In e elems ∧ In c (children e) ∧ tag c = name.
Proof.
  unfold path_child. rewrite in_flat_map. split.
  - intros (e & He & [Hc Ht]%filter_In). apply String.eqb_eq in Ht. eauto.
  - intros (e & He & Hc & Ht). exists e. split; [done|].
    apply filter_In. split; [done|]. by apply String.eqb_eq.
Qed.

Lemma path_attrib_In (key v : string) (elems : list Element) (e : Element) :
  In e (path_attrib key v elems) ↔ In e elems ∧ dict_get (attrib e) key = Some v.
Proof.
  unfold path_attrib. rewrite filter_In. split; intros [He H]; (split; [done|]).
  - destruct (dict_get (attrib e) key) as [w|]; [|discriminate].
    apply String.eqb_eq in H. congruence.
  - rewrite H. apply String.eqb_refl.
Qed.

(** The element found is a [field] of a [fields] child whose [name] is
    exactly [Supplier]. *)
Lemma find_Supplier_Some (component e : Element) :
  find_Supplier component = Some e →
  dict_get (attrib e) "name" = Some "Supplier"
  ∧ tag e = "field"
  ∧ ∃ fs, In fs (children component) ∧ tag fs = "fields" ∧ In e (children fs).
Proof.
  unfold find_Supplier. intros [l Hl]%head_Some.
  assert (He : In e (path_attrib "name" "Supplier"
                       (path_child "field" (path_child "fields" [component])))).
  { rewrite Hl. by left. }
  apply path_attrib_In in He as [He Hn].
  apply path_child_In in He as (fs & Hfs & He & Ht).
  apply path_child_In in Hfs as (c & Hc & Hfs & Htf).
  destruct Hc as [<-|[]]. eauto 10.
Qed.

(** No [field] with that exact name, no element found. *)
Lemma find_Supplier_None (component : Element) :
  (∀ fs f, In fs (children component) → tag fs = "fields" →
           In f (children fs) → tag f = "field" →
           dict_get (attrib f) "name" ≠ Some "Supplier") →
  find_Supplier component = None.
Proof.
  intros H. destruct (find_Supplier component) as [e|] eqn:E; [|done].
  apply find_Supplier_Some in E as (Hn & Ht & fs & Hfs & Htf & He).
  by destruct (H fs e).
Qed.







(** A Supplier field that comes second among the fields is found, and its
    text stored in upper case. *)
Example Supplier_second_field :
  let c := xml_comp "R9" [xml_fields [xml_field "PartNumber" "X1";
                                      xml_field "Supplier" "Mouser"]] in
  field_elements c = [xml_field "PartNumber" "X1"; xml_field "Supplier" "Mouser"]
  ∧ find_Supplier c = Some (xml_field "Supplier" "Mouser")
  ∧ init_Supplier c = Ok (PyStr "MOUSER").
Proof. repeat split; reflexivity. Qed.

Example Supplier_of_lcsc_resistor :
  find_Supplier (lcsc_resistor "R1") = Some (xml_field "Supplier" "lcsc")
  ∧ init_Supplier (lcsc_resistor "R1") = Ok (PyStr "LCSC").
Proof. split; reflexivity. Qed.


(** ** The validity gate of parseXml *)

Lemma Part_init_Supplier (component : Element) (p : Part) :
  Part_init component = Ok p → init_Supplier component = Ok (Supplier p).
Proof.
  unfold Part_init. destruct (subscript _ _); simpl; [|discriminate].
  destruct (init_footprint component); simpl; [|discriminate].
  destruct (init_Supplier component); simpl; [|discriminate].
  by intros [= <-].
Qed.

(** A component without a field named Supplier is built without a Supplier. *)
Lemma Part_init_absent_Supplier (component : Element) (p : Part) :
  find_Supplier component = None → Part_init component = Ok p → Supplier p = PyNone.
Proof.
  intros Hno Hp%Part_init_Supplier. unfold init_Supplier in Hp.
  rewrite Hno in Hp. congruence.
Qed.

(** A part that is not valid goes to the missing list with its reference,
    and the loop goes on from a state with the same suppliers and parts. *)
Lemma parse_component_invalid (st : parsed) (f : Element) (p : Part) :
  Part_init f = Ok p → isvalid p = false →
  parse_component st f
  = Ok {| suppliers := suppliers st; parts := parts st;
          missings := missings st ++ [ref p] |}.
Proof. intros Hp Hv. unfold parse_component. rewrite Hp. simpl. by rewrite Hv. Qed.

Lemma parse_component_absent_Supplier (st : parsed) (f : Element) (p : Part) :
  find_Supplier f = None → Part_init f = Ok p →
  parse_component st f
  = Ok {| suppliers := suppliers st; parts := parts st;
          missings := missings st ++ [ref p] |}.
Proof.
  intros Hno Hp. apply (parse_component_invalid _ _ _ Hp).
  unfold isvalid. by rewrite (Part_init_absent_Supplier _ _ Hno Hp).
Qed.

Example bare_component_is_missing :
  parseXml (xml_export [bare_component; lcsc_resistor "R1"])
  = Ok {| suppliers := [PyStr "LCSC"]; parts := [lcsc_resistor_part "R1"];
          missings := [PyStr "H1"] |}.
Proof. reflexivity. Qed.

(** An element without text stops the constructor: [None] has no [upper]. *)
Lemma init_Supplier_without_text (component e : Element) :
  find_Supplier component = Some e → text e = PyNone →
  init_Supplier component = Raise AttributeError.
Proof. intros He Ht. unfold init_Supplier. rewrite He, Ht. reflexivity. Qed.

(** C5: a component whose Supplier field is there and empty is not put on
    the missing list: the constructor raises on the missing text, and the
    whole parse, with the components that follow, is lost. *)
Theorem empty_Supplier_aborts_parse :
  Part_init empty_Supplier_component = Raise AttributeError
  ∧ parseXml (xml_export [empty_Supplier_component; lcsc_resistor "R1"])
    = Raise AttributeError
  ∧ main (xml_export [empty_Supplier_component; lcsc_resistor "R1"]) "board" ∅
    = (∅, Raise AttributeError).
Proof. repeat split; reflexivity. Qed.

(** ** Equality of parts and grouping *)

(** [==] on parts is never true: the generators compared are two objects. *)
Lemma Part_eq_false (p q : Part) : Part_eq p q = false.
Proof. unfold Part_eq. by destruct (negb _). Qed.

(** So the grouped branch appends every part. *)
Lemma group_into_appends (ps : list Part) (part : Part) :
  group_into ps part = Ok (ps ++ [part]).
Proof.
  induction ps as [|p ps IH]; simpl; [reflexivity|].
  rewrite Part_eq_false, IH. reflexivity.
Qed.

(** C1: two LCSC parts with the same PartNumber and SupplierRef are not
    merged.  They are not equal for [==], and the parser returns two rows
    of Quantity 1 where the claim has one row of Quantity 2. *)
Theorem equal_LCSC_parts_not_merged :
  let p1 := lcsc_resistor_part "R1" in
  let p2 := lcsc_resistor_part "R2" in
  needGrouping (Supplier p1) = true
  ∧ Supplier p1 = Supplier p2
  ∧ PartNumber p1 = PartNumber p2
  ∧ SupplierRef p1 = SupplierRef p2
  ∧ Part_eq p1 p2 = false
  ∧ parseXml (xml_export [lcsc_resistor "R1"; lcsc_resistor "R2"])
    = Ok {| suppliers := [PyStr "LCSC"]; parts := [p1; p2]; missings := [] |}
  ∧ Quantity p1 = PyInt 1
  ∧ Quantity p2 = PyInt 1.
Proof. repeat split; reflexivity. Qed.

(** ** Order of parts and sorted *)

(** Parts of two suppliers are ordered by the names of the suppliers. *)
Lemma Part_lt_other_supplier (p q : Part) (s t : string) :
  Supplier p = PyStr s → Supplier q = PyStr t → s ≠ t →
  Part_lt p q = Ok (String.ltb s t).
Proof.
  intros Hp Hq Hne. unfold Part_lt. rewrite Hp, Hq. simpl.
  apply String.eqb_neq in Hne. by rewrite Hne.
Qed.

Lemma pyval_eqb_refl (v : pyval) : pyval_eqb v v = true.
Proof.
  destruct v; simpl; [reflexivity|apply String.eqb_refl|apply Z.eqb_refl].
Qed.

(** Parts of one supplier cannot be compared: [<] on the two generators
    raises. *)
Lemma Part_lt_same_supplier (p q : Part) :
  Supplier p = Supplier q → Part_lt p q = Raise TypeError.
Proof. intros H. unfold Part_lt. rewrite H, pyval_eqb_refl. reflexivity. Qed.

(** Sorting a list that starts with two parts of one supplier raises. *)
Lemma py_sorted_same_supplier (p q : Part) (l : list Part) :
  Supplier p = Supplier q → py_sorted Part_lt (p :: q :: l) = Raise TypeError.
Proof.
  intros H. unfold py_sorted. simpl.
  rewrite (Part_lt_same_supplier q p) by done. reflexivity.
Qed.

(** C2: two parts of one supplier are not ordered by its sort keys.  The
    resistor (Yageo) and the capacitor (Samsung) are both accepted for
    LCSC; comparing them raises, so does sorting them, and the run stops
    before a BOM is written. *)
Theorem sorting_parts_of_one_supplier_raises :
  let r := lcsc_resistor_part "R1" in
  let c := lcsc_capacitor_part "C1" in
  parseXml (xml_export [lcsc_resistor "R1"; lcsc_capacitor "C1"])
  = Ok {| suppliers := [PyStr "LCSC"]; parts := [r; c]; missings := [] |}
  ∧ getSorted (Supplier r) = ["Manufacturer"; "PartNumber"]
  ∧ Part_lt c r = Raise TypeError
  ∧ Part_lt r c = Raise TypeError
  ∧ py_sorted Part_lt [r; c] = Raise TypeError
  ∧ main (xml_export [lcsc_resistor "R1"; lcsc_capacitor "C1"]) "board" ∅
    = (∅, Raise TypeError).
Proof. repeat split; reflexivity. Qed.

(** Parts of two suppliers are sorted, by supplier. *)
Example sorted_two_suppliers :
  py_sorted Part_lt [lcsc_resistor_part "R1"; jlcpcb_chip_part "U1"]
  = Ok [jlcpcb_chip_part "U1"; lcsc_resistor_part "R1"].
Proof. reflexivity. Qed.

(** ** The CPL rewriter: which file is read *)

Lemma getInputs_eq (path : string) :
  getInputs path
  = [path +:+ "-all-pos.csv"; path +:+ "-top-pos.csv"; path +:+ "-bottom-pos.csv"].
Proof. reflexivity. Qed.

(** The inner loop runs its body on the first input that is a file. *)
Lemma probe_find (fs : files) (inputs : list string) (path : string) (supplier : pyval) :
  probe inputs path supplier fs
  = match List.find (isfile fs) inputs with
    | Some input => rewrite_from input path supplier fs
    | None => (fs, Ok false)
    end.
Proof.
  induction inputs as [|input rest IH]; simpl; [reflexivity|].
  by destruct (isfile fs input).
Qed.

Lemma rewrite_from_JLCPCB (fs : files) (input path : string) :
  rewrite_from input path (PyStr "JLCPCB") fs
  = match copyCsv input (path +:+ "_Jlcpcb_CPL.csv") (HeadersDict JLCPCB_items) fs with
    | (fs', Ok _) => (fs', Ok true)
    | (fs', Raise e) => (fs', Raise e)
    end.
Proof.
  unfold rewrite_from. rewrite getHeaders_JLCPCB.
  change (getOutput path (PyStr "JLCPCB") g_cplext)
    with (Ok (path +:+ "_Jlcpcb_CPL.csv")).
  unfold mbind, io_bind, lift, mret, io_ret.
  by destruct (copyCsv _ _ _ fs) as [fs' [[]|e]].
Qed.

(** The turn of a supplier with a CPL in the loop of the rewriter: its
    status is set by the inner loop, and the loop goes on from the files
    the copy leaves. *)
Lemma rewrite_suppliers_cpl (fs : files) (path : string) (supplier : pyval)
    (rest : list pyval) (rewrited : list (pyval * bool)) :
  generateCpl supplier = true →
  rewrite_suppliers (supplier :: rest) path rewrited fs
  = match probe (getInputs path) path supplier fs with
    | (fs', Ok true) =>
        rewrite_suppliers rest path
          (dict_set (dict_set rewrited supplier false) supplier true) fs'
    | (fs', Ok false) =>
        rewrite_suppliers rest path (dict_set rewrited supplier false) fs'
    | (fs', Raise e) => (fs', Raise e)
    end.
Proof.
  intros H. cbn [rewrite_suppliers]. rewrite H. unfold mbind, io_bind.
  by destruct (probe _ _ _ fs) as [fs' [[]|e]].
Qed.

(** A supplier without a CPL is passed over. *)
Lemma rewrite_suppliers_no_cpl (fs : files) (path : string) (supplier : pyval)
    (rest : list pyval) (rewrited : list (pyval * bool)) :
  generateCpl supplier = false →
  rewrite_suppliers (supplier :: rest) path rewrited fs
  = rewrite_suppliers rest path rewrited fs.
Proof. intros H. cbn [rewrite_suppliers]. by rewrite H. Qed.

(** Without a supplier that has a CPL the rewriter touches no file. *)
Lemma rewriteCsv_no_cpl (fs : files) (path : string) (sups : list pyval) :
  Forall (fun supplier => generateCpl supplier = false) sups →
  rewriteCsv sups path fs = (fs, Ok []).
Proof.
  unfold rewriteCsv. generalize (@nil (pyval * bool)).
  induction sups as [|supplier rest IH]; intros d H; [reflexivity|].
  inversion H as [|? ? Hs Hrest]; subst.
  rewrite (rewrite_suppliers_no_cpl _ _ _ _ _ Hs). by apply IH.
Qed.

(** With a top-pos and a bottom-pos file, the top-pos file is copied. *)
Example rewriteCsv_board_files :
  List.find (isfile board_files) (getInputs "board") = Some "board-top-pos.csv"
  ∧ (rewriteCsv [PyStr "JLCPCB"] "board" board_files).2 = Ok [(PyStr "JLCPCB", true)]
  ∧ (rewriteCsv [PyStr "JLCPCB"] "board" board_files).1 !! "board_Jlcpcb_CPL.csv"
    = Some [["Designator"; "Val"; "Package"; "Mid X"; "Mid Y"; "Rotation"; "Layer"];
            ["U1"; "NE555"; "SOIC-8"; "10.0"; "20.0"; "90.0"; "top"]].
Proof. repeat split; vm_compute; reflexivity. Qed.

(** ** The CPL rewriter: what is written *)

Lemma list_setitem_in_range {A} (l : list A) (i : Z) (v : A) :
  0 ≤ i < Z.of_nat (length l) → list_setitem l i v = Ok (<[Z.to_nat i := v]> l).
Proof.
  intros [Hlo Hhi]. unfold list_setitem.
  destruct (i <? 0) eqn:E; [apply Z.ltb_lt in E; lia|].
  destruct (0 <=? i) eqn:E1; [|apply Z.leb_gt in E1; lia].
  destruct (i <? Z.of_nat (length l)) eqn:E2; [|apply Z.ltb_ge in E2; lia].
  reflexivity.
Qed.

Lemma list_setitem_beyond {A} (l : list A) (i : Z) (v : A) :
  Z.of_nat (length l) ≤ i → list_setitem l i v = Raise IndexError.
Proof.
  intros Hhi. unfold list_setitem.
  destruct (i <? 0) eqn:E; [apply Z.ltb_lt in E; lia|].
  destruct (i <? Z.of_nat (length l)) eqn:E2; [apply Z.ltb_lt in E2; lia|].
  by rewrite andb_false_r.
Qed.

Lemma length_overridden (items : list (Z * string)) (header : list string) :
  length (overridden items header) = length header.
Proof.
  revert header. induction items as [|[i v] items IH]; intros header; simpl;
    [reflexivity|].
  unfold overridden in *. simpl. by rewrite IH, length_insert.
Qed.

(** With every index in range the assignments succeed. *)
Lemma assign_headers_in_range (items : list (Z * string)) (header : list string) :
  Forall (fun iv => 0 ≤ iv.1 < Z.of_nat (length header)) items →
  assign_headers items header = Ok (overridden items header).
Proof.
  revert header. induction items as [|[i v] items IH]; intros header H; simpl;
    [reflexivity|].
  inversion H as [|? ? Hi Hrest]; subst. simpl in Hi.
  rewrite (list_setitem_in_range _ _ _ Hi). simpl.
  apply IH. by rewrite length_insert.
Qed.

(** With indices from 0 and one of them beyond the header, they raise. *)
Lemma assign_headers_beyond (items : list (Z * string)) (header : list string) :
  Forall (fun iv => 0 ≤ iv.1) items →
  Exists (fun iv => Z.of_nat (length header) ≤ iv.1) items →
  assign_headers items header = Raise IndexError.
Proof.
  revert header. induction items as [|[i v] items IH]; intros header Hpos Hex;
    [by inversion Hex|].
  inversion Hpos as [|? ? Hi Hrest]; subst. simpl in Hi. simpl.
  destruct (decide (Z.of_nat (length header) ≤ i)) as [Hge|Hlt].
  - by rewrite (list_setitem_beyond _ _ _ Hge).
  - rewrite list_setitem_in_range by lia. simpl.
    apply IH; [done|]. rewrite length_insert.
    inversion Hex as [? ? Hh|? ? Ht]; subst; [simpl in Hh; lia|done].
Qed.

(** A cell whose index is not in the table is the cell of the source. *)
Lemma overridden_other (items : list (Z * string)) (header : list string) (j : nat) :
  Forall (fun iv => 0 ≤ iv.1) items →
  (∀ v, (Z.of_nat j, v) ∉ items) →
  overridden items header !! j = header !! j.
Proof.
  revert header. induction items as [|[i v] items IH]; intros header Hpos Hj;
    [reflexivity|].
  inversion Hpos as [|? ? Hi Hrest]; subst. simpl in Hi.
  unfold overridden in *. simpl. rewrite IH; [|done|].
  - apply list_lookup_insert_ne. intros <-.
    apply (Hj v). rewrite Z2Nat.id by done. by left.
  - intros w Hw. apply (Hj w). by right.
Qed.

(** A cell whose index is in the table is the text of the table. *)
Lemma overridden_key (items : list (Z * string)) (header : list string) (i : Z) (v : string) :
  Forall (fun iv => 0 ≤ iv.1 < Z.of_nat (length header)) items →
  NoDup items.*1 →
  (i, v) ∈ items →
  overridden items header !! Z.to_nat i = Some v.
Proof.
  revert header. induction items as [|[i0 v0] items IH]; intros header Hin Hnd Hiv;
    [by apply elem_of_nil in Hiv|].
  inversion Hin as [|? ? Hi Hrest]; subst. simpl in Hi.
  rewrite fmap_cons in Hnd. apply NoDup_cons in Hnd as [Hfresh Hnd].
  apply elem_of_cons in Hiv as [[= -> ->]|Hiv].
  - change (overridden ((i0, v0) :: items) header)
      with (overridden items (<[Z.to_nat i0 := v0]> header)).
    rewrite overridden_other.
    + apply list_lookup_insert_eq. lia.
    + eapply Forall_impl; [exact Hrest|]. simpl. lia.
    + intros w Hw. apply Hfresh. rewrite Z2Nat.id in Hw by lia.
      apply (list_elem_of_fmap_2 fst) in Hw. exact Hw.
  - change (overridden ((i0, v0) :: items) header)
      with (overridden items (<[Z.to_nat i0 := v0]> header)).
    apply IH; [|done|done].
    by rewrite length_insert.
Qed.

(** The source and the destination of a copy are two paths. *)
Lemma getInput_neq_getOutput (path post post' : string) (supplier : pyval) (output : string) :
  getOutput path supplier post' = Ok output → getInput path post ≠ output.
Proof.
  destruct supplier as [|s|n]; simpl; try discriminate. intros [= <-].
  unfold getInput. induction path as [|a path IH]; simpl; [discriminate|].
  intros [= H]. by apply IH.
Qed.

(** [copyCsv] on a file with a header and a table in range. *)
Lemma copyCsv_in_range (fs : files) (input output : string)
    (items : list (Z * string)) (header : list string) (rows : list (list string)) :
  input ≠ output →
  fs !! input = Some (header :: rows) →
  Forall (fun iv => 0 ≤ iv.1 < Z.of_nat (length header)) items →
  copyCsv input output (HeadersDict items) fs
  = (<[output := overridden items header :: rows]> fs, Ok ()).
Proof.
  intros Hne Hin Hrange. unfold copyCsv. rewrite Hin.
  rewrite lookup_insert_ne by done. rewrite Hin.
  rewrite (assign_headers_in_range _ _ Hrange). by rewrite insert_insert_eq.
Qed.

(** [copyCsv] on a file with a header too short for the table. *)
Lemma copyCsv_beyond (fs : files) (input output : string)
    (items : list (Z * string)) (header : list string) (rows : list (list string)) :
  input ≠ output →
  fs !! input = Some (header :: rows) →
  Forall (fun iv => 0 ≤ iv.1) items →
  Exists (fun iv => Z.of_nat (length header) ≤ iv.1) items →
  copyCsv input output (HeadersDict items) fs = (<[output := []]> fs, Raise IndexError).
Proof.
  intros Hne Hin Hpos Hex. unfold copyCsv. rewrite Hin.
  rewrite lookup_insert_ne by done. rewrite Hin.
  by rewrite (assign_headers_beyond _ _ Hpos Hex).
Qed.

Lemma required_cells_le (items : list (Z * string)) (n : Z) :
  0 ≤ n → required_cells items ≤ n ↔ Forall (fun iv => iv.1 < n) items.
Proof.
  intros Hn. induction items as [|[i v] items IH]; simpl.
  - split; [constructor|done].
  - rewrite Forall_cons. simpl. rewrite <- IH. lia.
Qed.

Lemma required_cells_gt (items : list (Z * string)) (n : Z) :
  0 ≤ n → n < required_cells items → Exists (fun iv => n ≤ iv.1) items.
Proof.
  intros Hn. induction items as [|[i v] items IH]; simpl; [lia|].
  intros H. destruct (decide (n ≤ i)) as [Hi|Hi]; [by left|].
  right. apply IH. lia.
Qed.

Lemma required_cells_JLCPCB : required_cells JLCPCB_items = 7.
Proof. reflexivity. Qed.

(** C8: the copy has the rows of the source after the header as they are,
    and as many rows; its header has the text of the table at each index
    of the table and the cell of the source at every other index. *)
Theorem copyCsv_changes_only_overridden_cells (fs : files) (input output : string)
    (items : list (Z * string)) (header : list string) (rows : list (list string)) :
  input ≠ output →
  fs !! input = Some (header :: rows) →
  Forall (fun iv => 0 ≤ iv.1 < Z.of_nat (length header)) items →
  NoDup items.*1 →
  ∃ header',
    copyCsv input output (HeadersDict items) fs
    = (<[output := header' :: rows]> fs, Ok ())
    ∧ (∀ i v, (i, v) ∈ items → header' !! Z.to_nat i = Some v)
    ∧ (∀ j, (∀ v, (Z.of_nat j, v) ∉ items) → header' !! j = header !! j)
    ∧ length header' = length header
    ∧ length (header' :: rows) = length (header :: rows).
Proof.
  intros Hne Hin Hrange Hnd. exists (overridden items header).
  split; [by apply copyCsv_in_range|]. split; [|split; [|split]].
  - intros i v Hiv. by apply overridden_key.
  - intros j Hj. apply overridden_other; [|done].
    eapply Forall_impl; [exact Hrange|]. simpl. lia.
  - apply length_overridden.
  - reflexivity.
Qed.

Lemma copyCsv_changes_only_overridden_cells_witness :
  ∃ header',
    copyCsv "board-top-pos.csv" "board_Jlcpcb_CPL.csv" (HeadersDict JLCPCB_items)
            board_files
    = (<["board_Jlcpcb_CPL.csv" :=
           header' :: [["U1"; "NE555"; "SOIC-8"; "10.0"; "20.0"; "90.0"; "top"]]]>
         board_files, Ok ())
    ∧ (∀ i v, (i, v) ∈ JLCPCB_items → header' !! Z.to_nat i = Some v)
    ∧ (∀ j, (∀ v, (Z.of_nat j, v) ∉ JLCPCB_items) →
         header' !! j = ["Ref"; "Val"; "Package"; "PosX"; "PosY"; "Rot"; "Side"] !! j)
    ∧ length header' = length ["Ref"; "Val"; "Package"; "PosX"; "PosY"; "Rot"; "Side"]
    ∧ length (header' :: [["U1"; "NE555"; "SOIC-8"; "10.0"; "20.0"; "90.0"; "top"]])
      = length top_pos_rows.
Proof.
  apply (copyCsv_changes_only_overridden_cells board_files
           "board-top-pos.csv" "board_Jlcpcb_CPL.csv" JLCPCB_items
           ["Ref"; "Val"; "Package"; "PosX"; "PosY"; "Rot"; "Side"]
           [["U1"; "NE555"; "SOIC-8"; "10.0"; "20.0"; "90.0"; "top"]]).
  - discriminate.
  - reflexivity.
  - repeat constructor; simpl; lia.
  - apply (bool_decide_unpack (NoDup _)). vm_compute. exact I.
Defined.

(** The header of the specification, rewritten for JLCPCB. *)
Example copyCsv_JLCPCB_header :
  overridden JLCPCB_items
    ["Designator"; "Layer"; "Value"; "Mid X"; "Mid Y"; "Rotation"; "Layer"]
  = ["Designator"; "Layer"; "Value"; "Mid X"; "Mid Y"; "Rotation"; "Layer"]
  ∧ overridden JLCPCB_items ["Ref"; "Val"; "Package"; "PosX"; "PosY"; "Rot"; "Side"]
    = ["Designator"; "Val"; "Package"; "Mid X"; "Mid Y"; "Rotation"; "Layer"].
Proof. split; reflexivity. Qed.

(** C9: with indices from 0, the copy succeeds exactly when the header of
    the source has the cells the table needs, seven for JLCPCB; on a
    shorter header it raises [IndexError] and leaves the output empty. *)
Theorem copyCsv_needs_required_cells (fs : files) (input output : string)
    (items : list (Z * string)) (header : list string) (rows : list (list string)) :
  input ≠ output →
  fs !! input = Some (header :: rows) →
  Forall (fun iv => 0 ≤ iv.1) items →
  ((copyCsv input output (HeadersDict items) fs).2 = Ok ()
   ↔ required_cells items ≤ Z.of_nat (length header))
  ∧ (Z.of_nat (length header) < required_cells items →
       copyCsv input output (HeadersDict items) fs
       = (<[output := []]> fs, Raise IndexError)
       ∧ (copyCsv input output (HeadersDict items) fs).1 !! output = Some [])
  ∧ (getHeaders (PyStr "JLCPCB") = Ok (HeadersDict items) → required_cells items = 7).
Proof.
  intros Hne Hin Hpos.
  assert (Hshort : Z.of_nat (length header) < required_cells items →
            copyCsv input output (HeadersDict items) fs
            = (<[output := []]> fs, Raise IndexError)).
  { intros Hlt. apply (copyCsv_beyond _ _ _ _ _ _ Hne Hin Hpos).
    apply required_cells_gt; [lia|done]. }
  split; [|split].
  - split.
    + intros Hok. destruct (decide (required_cells items ≤ Z.of_nat (length header)));
        [done|].
      rewrite Hshort in Hok by lia. discriminate.
    + intros Hle. apply required_cells_le in Hle; [|lia].
      rewrite (copyCsv_in_range _ _ _ _ header rows Hne Hin); [reflexivity|].
      apply Forall_forall. intros iv Hiv.
      rewrite Forall_forall in Hpos, Hle. split; [by apply Hpos|by apply Hle].
  - intros Hlt. rewrite (Hshort Hlt). split; [reflexivity|]. simpl.
    apply lookup_insert_eq.
  - rewrite getHeaders_JLCPCB. by intros [= <-].
Qed.

Lemma copyCsv_needs_required_cells_witness :
  ((copyCsv "board-all-pos.csv" "board_Jlcpcb_CPL.csv" (HeadersDict JLCPCB_items)
            short_files).2 = Ok ()
   ↔ required_cells JLCPCB_items
     ≤ Z.of_nat (length ["Ref"; "Val"; "Package"; "PosX"; "PosY"; "Rot"]))
  ∧ (Z.of_nat (length ["Ref"; "Val"; "Package"; "PosX"; "PosY"; "Rot"])
     < required_cells JLCPCB_items →
       copyCsv "board-all-pos.csv" "board_Jlcpcb_CPL.csv" (HeadersDict JLCPCB_items)
               short_files
       = (<["board_Jlcpcb_CPL.csv" := []]> short_files, Raise IndexError)
       ∧ (copyCsv "board-all-pos.csv" "board_Jlcpcb_CPL.csv"
                  (HeadersDict JLCPCB_items) short_files).1
         !! "board_Jlcpcb_CPL.csv" = Some [])
  ∧ (getHeaders (PyStr "JLCPCB") = Ok (HeadersDict JLCPCB_items) →
     required_cells JLCPCB_items = 7).
Proof.
  apply (copyCsv_needs_required_cells short_files
           "board-all-pos.csv" "board_Jlcpcb_CPL.csv" JLCPCB_items
           ["Ref"; "Val"; "Package"; "PosX"; "PosY"; "Rot"]
           [["U1"; "NE555"; "SOIC-8"; "10.0"; "20.0"; "90.0"]]).
  - discriminate.
  - reflexivity.
  - repeat constructor; simpl; lia.
Defined.

(** A JLCPCB run on a position file with six columns stops in the copy,
    after the BOM is written, with an empty CPL file. *)
Example main_short_position_file :
  (main (xml_export [jlcpcb_chip "U1"]) "board" short_files).2 = Raise IndexError
  ∧ (main (xml_export [jlcpcb_chip "U1"]) "board" short_files).1
      !! "board_Jlcpcb_CPL.csv" = Some []
  ∧ (main (xml_export [jlcpcb_chip "U1"]) "board" short_files).1
      !! "board_Jlcpcb_BOM.csv"
    = Some [["Comment"; "Designator"; "Footprint"; "LCSC Part #"];
            ["NE555"; "U1"; "SOIC-8"; "C7593"]].
Proof. repeat split; vm_compute; reflexivity. Qed.

(** ** The BOM writer and a whole run *)

Lemma getFields_cases (supplier : pyval) :
  getFields supplier = fields Default_profile
  ∨ getFields supplier = fields JLCPCB_profile
  ∨ getFields supplier = fields LCSC_profile.
Proof.
  unfold getFields. destruct (registered supplier) as [p|] eqn:E; [|by left].
  apply registered_inv in E as [[_ ->]|[[_ ->]|[_ ->]]]; auto.
Qed.

(** Every attribute a field table names is an attribute of a part: making
    a row does not raise. *)
Lemma make_row_ok (supplier : pyval) (part : Part) :
  ∃ cells, make_row (getFields supplier) part = Ok cells.
Proof.
  destruct (getFields_cases supplier) as [H|[H|H]]; rewrite H;
    eexists; reflexivity.
Qed.

(** A run on a resistor from LCSC and a chip from JLCPCB, with a top-pos
    and a bottom-pos file: two BOM files, and the CPL from top-pos. *)
Example main_two_suppliers :
  let out := main (xml_export [lcsc_resistor "R1"; jlcpcb_chip "U1"]) "board" board_files in
  out.2 = Ok ([PyStr "LCSC"; PyStr "JLCPCB"], [], [(PyStr "JLCPCB", true)])
  ∧ out.1 !! "board_Lcsc_BOM.csv"
    = Some [["Quantity"; "Manufacture Part Number"; "Manufacturer"; "Description";
             "LCSC Part Number"; "Package"];
            ["1"; "RC0603FR-0710KL"; "Yageo"; "R1"; "C98220"; "R_0603"]]
  ∧ out.1 !! "board_Jlcpcb_BOM.csv"
    = Some [["Comment"; "Designator"; "Footprint"; "LCSC Part #"];
            ["NE555"; "U1"; "SOIC-8"; "C7593"]]
  ∧ out.1 !! "board_Jlcpcb_CPL.csv"
    = Some [["Designator"; "Val"; "Package"; "Mid X"; "Mid Y"; "Rotation"; "Layer"];
            ["U1"; "NE555"; "SOIC-8"; "10.0"; "20.0"; "90.0"; "top"]]
  ∧ out.1 !! "board-top-pos.csv" = Some top_pos_rows.
Proof. repeat split; vm_compute; reflexivity. Qed.

(** * Further properties of the code *)

(** ** The constructor of Part *)

Lemma text_cases (e : Element) : text e = PyNone ∨ ∃ s, text e = PyStr s.
Proof. destruct e as [t a [s|] c]; simpl; eauto. Qed.

Lemma init_footprint_cases (component : Element) :
  (∃ f, init_footprint component = Ok (PyStr f)
        ∧ ¬ without_text (find component "footprint"))
  ∨ (init_footprint component = Raise AttributeError
     ∧ without_text (find component "footprint")).
Proof.
  unfold init_footprint, without_text.
  destruct (find component "footprint") as [e|].
  - destruct (text_cases e) as [Ht|[s Ht]]; rewrite Ht.
    + right. split; [reflexivity|eauto].
    + left. destruct (pop_split_ok ":" s) as [seg Hseg].
      exists seg. unfold footprint_name. simpl. rewrite Hseg. split; [reflexivity|].
      intros (e' & [= <-] & Hn). congruence.
  - left. exists "". split; [reflexivity|]. by intros (e' & ? & _).
Qed.

Lemma init_Supplier_cases (component : Element) :
  (∃ v, init_Supplier component = Ok v ∧ ¬ without_text (find_Supplier component))
  ∨ (init_Supplier component = Raise AttributeError
     ∧ without_text (find_Supplier component)).
Proof.
  unfold init_Supplier, without_text.
  destruct (find_Supplier component) as [e|].
  - destruct (text_cases e) as [Ht|[s Ht]]; rewrite Ht.
    + right. split; [reflexivity|eauto].
    + left. eexists. split; [reflexivity|].
      intros (e' & [= <-] & Hn). congruence.
  - left. eexists. split; [reflexivity|]. by intros (e' & ? & _).
Qed.

(** X1: the constructor raises [KeyError] exactly for a component without
    a [ref] attribute, and [AttributeError] exactly for one with a [ref]
    and a [footprint] child or a Supplier field that has no text; it
    returns a part in every other case. *)
Theorem Part_init_outcome (component : Element) :
  match Part_init component with
  | Ok p =>
      is_Some (dict_get (attrib component) "ref")
      ∧ ¬ without_text (find component "footprint")
      ∧ ¬ without_text (find_Supplier component)
  | Raise e =>
      (e = KeyError ∧ dict_get (attrib component) "ref" = None)
      ∨ (e = AttributeError
         ∧ is_Some (dict_get (attrib component) "ref")
         ∧ (without_text (find component "footprint")
            ∨ without_text (find_Supplier component)))
  end.
Proof.
  unfold Part_init, subscript.
  destruct (dict_get (attrib component) "ref") as [r|]; simpl; [|by left].
  destruct (init_footprint_cases component) as [(f & -> & Hf)|[-> Hf]]; simpl.
  - destruct (init_Supplier_cases component) as [(v & -> & Hs)|[-> Hs]]; simpl.
    + eauto.
    + right. eauto.
  - right. eauto.
Qed.

(** ** The footprint of a part *)

(** A text has no separator, or a last one. *)
Lemma last_sep (sep : ascii) (s : string) :
  occurs sep s = false
  ∨ ∃ pre post, s = pre +:+ String sep post ∧ occurs sep post = false.
Proof.
  induction s as [|a s IH]; [by left|].
  destruct IH as [Hno|(pre & post & -> & Hno)].
  - simpl. destruct (Ascii.eqb a sep) eqn:E.
    + right. exists "", s. apply Ascii.eqb_eq in E as ->. done.
    + by left.
  - right. by exists (String a pre), post.
Qed.

Lemma footprint_name_suffix (t : string) :
  ∃ f, footprint_name (PyStr t) = Ok (PyStr f)
       ∧ occurs ":" f = false
       ∧ (t = f ∨ ∃ pre, t = pre +:+ String ":" f).
Proof.
  unfold footprint_name. simpl.
  destruct (last_sep ":" t) as [Hno|(pre & post & -> & Hno)].
  - exists t. rewrite (pop_split_no_sep _ _ Hno). auto.
  - exists post. rewrite (pop_split_app _ _ _ Hno). eauto.
Qed.

(** X3: the footprint of a part never has a colon: it is the empty text
    when the component has no [footprint] child, and otherwise the whole
    text of that child or what follows a colon in it. *)
Theorem footprint_has_no_colon (component : Element) (p : Part) :
  Part_init component = Ok p →
  ∃ f, footprint p = PyStr f
       ∧ occurs ":" f = false
       ∧ (find component "footprint" = None → f = "")
       ∧ (∀ e t, find component "footprint" = Some e → text e = PyStr t →
            t = f ∨ ∃ pre, t = pre +:+ String ":" f).
Proof.
  unfold Part_init. destruct (subscript _ _) as [r|]; simpl; [|discriminate].
  destruct (init_footprint component) as [fp|] eqn:Hf; simpl; [|discriminate].
  destruct (init_Supplier component) as [sup|]; simpl; [|discriminate].
  intros [= <-]. simpl. unfold init_footprint in Hf.
  destruct (find component "footprint") as [e|].
  - destruct (text_cases e) as [Ht|[t Ht]]; rewrite Ht in Hf; [discriminate|].
    destruct (footprint_name_suffix t) as (f & Hf' & Hno & Hsuf).
    rewrite Hf' in Hf. injection Hf as <-. exists f.
    split; [done|]. split; [done|]. split; [discriminate|].
    intros e' t' [= <-] Ht'. rewrite Ht in Ht'. by injection Ht' as <-.
  - injection Hf as <-. exists "". split; [done|]. split; [done|].
    split; [done|]. discriminate.
Qed.

Lemma footprint_has_no_colon_witness :
  ∃ f, footprint (lcsc_resistor_new "R1") = PyStr f
       ∧ occurs ":" f = false
       ∧ (find (lcsc_resistor "R1") "footprint" = None → f = "")
       ∧ (∀ e t, find (lcsc_resistor "R1") "footprint" = Some e → text e = PyStr t →
            t = f ∨ ∃ pre, t = pre +:+ String ":" f).
Proof.
  apply (footprint_has_no_colon (lcsc_resistor "R1") (lcsc_resistor_new "R1")).
  reflexivity.
Defined.

(** ** setCustomFields *)

Lemma pyval_eqb_eq (a b : pyval) : pyval_eqb a b = true ↔ a = b.
Proof.
  destruct a, b; simpl; try (split; [discriminate|congruence]).
  - done.
  - rewrite String.eqb_eq. split; congruence.
  - rewrite Z.eqb_eq. split; congruence.
Qed.

Lemma py_in_elem_of (x : pyval) (l : list pyval) : py_in x l = true ↔ x ∈ l.
Proof.
  unfold py_in. rewrite existsb_exists. split.
  - intros (y & Hy%list_elem_of_In & ->%pyval_eqb_eq). done.
  - intros Hx. exists x. split; [by apply list_elem_of_In|apply pyval_eqb_refl].
Qed.

(** Assigning one attribute leaves the others. *)
Lemma getattr_setattr_ne (p : Part) (name name' : string) (v : pyval) :
  name ≠ name' → getattr (setattr p name v) name' = getattr p name'.
Proof.
  intros Hne. unfold setattr.
  repeat match goal with
         | |- context [String.eqb name ?k] =>
             destruct (String.eqb_spec name k) as [->|?]
         end; try reflexivity;
    unfold getattr; simpl;
    repeat match goal with
           | |- context [String.eqb name' ?k] =>
               destruct (String.eqb_spec name' k) as [->|?]
           end; congruence.
Qed.

Lemma getattr_Supplier (p : Part) : getattr p "Supplier" = Ok (Supplier p).
Proof. reflexivity. Qed.

Lemma getattr_Quantity (p : Part) : getattr p "Quantity" = Ok (Quantity p).
Proof. reflexivity. Qed.

(** No field table names the Supplier. *)
Lemma assignable_Supplier (supplier : pyval) : assignable supplier "Supplier" = false.
Proof.
  unfold assignable.
  destruct (getFields_cases supplier) as [H|[H|H]]; rewrite H; reflexivity.
Qed.

Lemma assignable_JLCPCB_Quantity : assignable (PyStr "JLCPCB") "Quantity" = false.
Proof. reflexivity. Qed.

(** The loop over the fields keeps the Supplier and every attribute the
    field table of the supplier does not name. *)
Lemma set_fields_frame (fs : list Element) (self self' : Part) :
  set_fields self fs = Ok self' →
  Supplier self' = Supplier self
  ∧ ∀ name, assignable (Supplier self) name = false →
            getattr self' name = getattr self name.
Proof.
  revert self. induction fs as [|f fs IH]; intros self; simpl.
  - intros [= <-]. done.
  - destruct (subscript (attrib f) "name") as [name0|]; simpl; [|discriminate].
    fold (assignable (Supplier self) name0).
    destruct (assignable (Supplier self) name0) eqn:Ha.
    + intros [HS Hframe]%IH.
      assert (Hsup : Supplier (setattr self name0 (text f)) = Supplier self).
      { assert (Hne : name0 ≠ "Supplier").
        { intros ->. rewrite assignable_Supplier in Ha. discriminate. }
        pose proof (getattr_setattr_ne self _ _ (text f) Hne) as H.
        rewrite !getattr_Supplier in H. congruence. }
      rewrite Hsup in HS, Hframe. split; [done|].
      intros name Hname. rewrite (Hframe name Hname).
      apply getattr_setattr_ne. intros ->. congruence.
    + apply IH.
Qed.

(** A field without a [name] is the one way the loop raises. *)
Lemma set_fields_raises (fs : list Element) (self : Part) (e : exn) :
  set_fields self fs = Raise e → e = KeyError.
Proof.
  revert self. induction fs as [|f fs IH]; intros self; simpl; [discriminate|].
  unfold subscript. destruct (dict_get (attrib f) "name"); simpl.
  - apply IH.
  - congruence.
Qed.

(** The equality keys: [ref] for JLCPCB, [PartNumber] and [SupplierRef]
    for every other supplier. *)
Lemma getEqual_cases (supplier : pyval) :
  (supplier = PyStr "JLCPCB" ∧ getEqual supplier = ["ref"])
  ∨ (supplier ≠ PyStr "JLCPCB" ∧ getEqual supplier = ["PartNumber"; "SupplierRef"]).
Proof.
  unfold getEqual. destruct (registered supplier) as [p|] eqn:E.
  - apply registered_inv in E as [[-> ->]|[[-> ->]|[-> ->]]];
      [right|left|right]; done.
  - right. split; [|done]. intros ->. discriminate.
Qed.

(** JLCPCB is the one supplier that is not grouped. *)
Lemma needGrouping_false (supplier : pyval) :
  needGrouping supplier = false → supplier = PyStr "JLCPCB".
Proof.
  unfold needGrouping. destruct (registered supplier) as [p|] eqn:E; [|discriminate].
  apply registered_inv in E as [[-> ->]|[[-> ->]|[-> ->]]]; simpl; congruence.
Qed.

(** [all] over the equality keys does not raise, and says whether they
    are all true. *)
Lemma all_getEqual (supplier : pyval) (part : Part) :
  all part (getEqual supplier)
  = Ok (if decide (supplier = PyStr "JLCPCB") then truthy (ref part)
        else truthy (PartNumber part) && truthy (SupplierRef part)).
Proof.
  destruct (getEqual_cases supplier) as [[-> ->]|[Hne ->]].
  - simpl. by destruct (truthy (ref part)).
  - rewrite decide_False by done. simpl.
    destruct (truthy (PartNumber part)); [|done].
    by destruct (truthy (SupplierRef part)).
Qed.

(** What [setCustomFields] returns, when it returns. *)
Lemma setCustomFields_Ok (self self' : Part) (fields : option Element)
    (sups sups' : list pyval) (accepted : bool) :
  setCustomFields self fields sups = Ok (self', sups', accepted) →
  ∃ fs, fields = Some fs
        ∧ set_fields self (children fs) = Ok self'
        ∧ all self' (getEqual (Supplier self')) = Ok accepted
        ∧ sups' = (if accepted
                   then if py_in (Supplier self') sups then sups
                        else sups ++ [Supplier self']
                   else sups).
Proof.
  unfold setCustomFields. destruct fields as [fs|]; [|discriminate].
  destruct (set_fields self (children fs)) as [p|] eqn:Hp; simpl; [|discriminate].
  destruct (all p (getEqual (Supplier p))) as [[]|] eqn:Ha; simpl;
    intros [= <- <- <-]; eauto.
Qed.

(** X4: [setCustomFields] never changes the Supplier of the part, nor any
    attribute that the field table of its supplier does not name; it
    leaves the list of suppliers as it is when it rejects the part, and
    when it accepts makes sure the supplier is in the list, adding it at
    the end if it was not there. *)
Theorem setCustomFields_frame (self self' : Part) (fields : option Element)
    (sups sups' : list pyval) (accepted : bool) :
  setCustomFields self fields sups = Ok (self', sups', accepted) →
  Supplier self' = Supplier self
  ∧ (∀ name, assignable (Supplier self) name = false →
             getattr self' name = getattr self name)
  ∧ (accepted = false → sups' = sups)
  ∧ (accepted = true →
       Supplier self ∈ sups'
       ∧ (sups' = sups ∨ ((Supplier self ∉ sups) ∧ sups' = sups ++ [Supplier self]))).
Proof.
  intros (fs & -> & [HS Hframe]%set_fields_frame & _ & ->)%setCustomFields_Ok.
  split; [done|]. split; [done|]. split; [by intros ->|].
  intros ->. rewrite HS.
  destruct (py_in (Supplier self) sups) eqn:Hin.
  - apply py_in_elem_of in Hin. auto.
  - split; [set_solver|]. right. split; [|done].
    intros Hin'%py_in_elem_of. congruence.
Qed.

Lemma setCustomFields_frame_witness :
  Supplier (lcsc_resistor_part "R1") = Supplier (lcsc_resistor_new "R1")
  ∧ (∀ name, assignable (Supplier (lcsc_resistor_new "R1")) name = false →
             getattr (lcsc_resistor_part "R1") name
             = getattr (lcsc_resistor_new "R1") name)
  ∧ (true = false → [PyStr "LCSC"] = [])
  ∧ (true = true →
       Supplier (lcsc_resistor_new "R1") ∈ [PyStr "LCSC"]
       ∧ ([PyStr "LCSC"] = []
          ∨ ((Supplier (lcsc_resistor_new "R1") ∉ [])
             ∧ [PyStr "LCSC"] = [] ++ [Supplier (lcsc_resistor_new "R1")]))).
Proof.
  apply (setCustomFields_frame (lcsc_resistor_new "R1") (lcsc_resistor_part "R1")
           (find (lcsc_resistor "R1") "fields") [] [PyStr "LCSC"] true).
  reflexivity.
Defined.

(** X5: the part is accepted exactly when its equality keys are true after
    the fields are read: the reference for JLCPCB, the PartNumber and the
    SupplierRef for every other supplier, registered or not. *)
Theorem setCustomFields_accepts_iff (self self' : Part) (fields : option Element)
    (sups sups' : list pyval) (accepted : bool) :
  setCustomFields self fields sups = Ok (self', sups', accepted) →
  (Supplier self = PyStr "JLCPCB" → accepted = truthy (ref self'))
  ∧ (Supplier self ≠ PyStr "JLCPCB" →
       accepted = (truthy (PartNumber self') && truthy (SupplierRef self'))).
Proof.
  intros (fs & -> & [HS _]%set_fields_frame & Hall & _)%setCustomFields_Ok.
  rewrite all_getEqual, HS in Hall. injection Hall as <-.
  split; intros H; [by rewrite decide_True|by rewrite decide_False].
Qed.

Lemma setCustomFields_accepts_iff_witness :
  (Supplier (lcsc_resistor_new "R1") = PyStr "JLCPCB" →
     true = truthy (ref (lcsc_resistor_part "R1")))
  ∧ (Supplier (lcsc_resistor_new "R1") ≠ PyStr "JLCPCB" →
       true = (truthy (PartNumber (lcsc_resistor_part "R1"))
               && truthy (SupplierRef (lcsc_resistor_part "R1")))).
Proof.
  apply (setCustomFields_accepts_iff (lcsc_resistor_new "R1") (lcsc_resistor_part "R1")
           (find (lcsc_resistor "R1") "fields") [] [PyStr "LCSC"] true).
  reflexivity.
Defined.

(** ** One component in parseXml *)

Lemma Part_init_Quantity (component : Element) (p : Part) :
  Part_init component = Ok p → Quantity p = PyInt 1.
Proof.
  unfold Part_init. destruct (subscript _ _); simpl; [|discriminate].
  destruct (init_footprint component); simpl; [|discriminate].
  destruct (init_Supplier component); simpl; [|discriminate].
  by intros [= <-].
Qed.

Lemma Part_init_raises (component : Element) (e : exn) :
  Part_init component = Raise e → e = KeyError ∨ e = AttributeError.
Proof.
  unfold Part_init, subscript.
  destruct (dict_get (attrib component) "ref"); simpl; [|intros [= <-]; auto].
  destruct (init_footprint_cases component) as [(f & -> & _)|[-> _]]; simpl;
    [|intros [= <-]; auto].
  destruct (init_Supplier_cases component) as [(v & -> & _)|[-> _]]; simpl;
    [discriminate|intros [= <-]; auto].
Qed.

(** A valid part comes from a component with a [fields] child. *)
Lemma isvalid_has_fields (component : Element) (p : Part) :
  Part_init component = Ok p → isvalid p = true →
  ∃ fs, find component "fields" = Some fs.
Proof.
  intros Hp Hv. destruct (find_Supplier component) as [e|] eqn:He.
  - apply find_Supplier_Some in He as (_ & _ & fs & Hin & Htag & _).
    unfold find. destruct (path_child "fields" [component]) as [|x l] eqn:E;
      [|by exists x].
    assert (Hfs : In fs (path_child "fields" [component])).
    { apply path_child_In. exists component. split; [by left|done]. }
    rewrite E in Hfs. destruct Hfs.
  - unfold isvalid in Hv.
    rewrite (Part_init_absent_Supplier _ _ He Hp) in Hv. discriminate.
Qed.

(** The Supplier the constructor stores is [None] or a text. *)
Lemma Part_init_Supplier_str (component : Element) (p : Part) :
  Part_init component = Ok p → Supplier p = PyNone ∨ is_str (Supplier p).
Proof.
  intros Hp%Part_init_Supplier. unfold init_Supplier in Hp.
  destruct (find_Supplier component) as [e|]; [|left; congruence].
  destruct (text_cases e) as [Ht|[s Ht]]; rewrite Ht in Hp; [discriminate|].
  right. exists (upper s). simpl in Hp. congruence.
Qed.

(** A JLCPCB part keeps the Quantity 1 of the constructor. *)
Lemma ungrouped_Quantity (component : Element) (p part : Part) (fs : list Element) :
  Part_init component = Ok p →
  set_fields p fs = Ok part →
  needGrouping (Supplier part) = false →
  Quantity part = PyInt 1.
Proof.
  intros Hp [HS Hframe]%set_fields_frame Hg%needGrouping_false.
  rewrite HS in Hg. rewrite Hg in Hframe.
  pose proof (Hframe "Quantity" assignable_JLCPCB_Quantity) as H.
  rewrite !getattr_Quantity in H. injection H as ->.
  by apply Part_init_Quantity in Hp.
Qed.

(** One turn of the loop, when it does not raise: the component goes to
    the missing list, or its part goes to the end of the parts. *)
Lemma parse_component_cases (st st' : parsed) (f : Element) :
  parse_component st f = Ok st' →
  (suppliers st' = suppliers st ∧ parts st' = parts st
   ∧ ∃ r, missings st' = missings st ++ [r])
  ∨ (∃ part,
       parts st' = parts st ++ [part]
       ∧ missings st' = missings st
       ∧ isvalid part = true
       ∧ is_str (Supplier part)
       ∧ all part (getEqual (Supplier part)) = Ok true
       ∧ Supplier part ∈ suppliers st'
       ∧ (suppliers st' = suppliers st
          ∨ ((Supplier part ∉ suppliers st)
             ∧ suppliers st' = suppliers st ++ [Supplier part]))).
Proof.
  unfold parse_component.
  destruct (Part_init f) as [p|] eqn:Hp; simpl; [|discriminate].
  destruct (isvalid p) eqn:Hv; simpl; [|intros [= <-]; left; eauto].
  destruct (setCustomFields p (find f "fields") (suppliers st))
    as [[[part sups] accepted]|] eqn:Hs; simpl; [|discriminate].
  apply setCustomFields_Ok in Hs as (fs & Hfs & Hset & Hall & Hsups).
  destruct accepted; simpl; [|intros [= <-]; left; subst sups; eauto].
  assert (Hvalid : isvalid part = true ∧ is_str (Supplier part)).
  { apply set_fields_frame in Hset as [HS _]. rewrite HS.
    split; [by unfold isvalid in *; rewrite HS|].
    destruct (Part_init_Supplier_str _ _ Hp) as [Hn|Hstr]; [|done].
    unfold isvalid in Hv. rewrite Hn in Hv. discriminate. }
  destruct Hvalid as [Hvalid Hstr].
  assert (Hlisted : Supplier part ∈ sups
            ∧ (sups = suppliers st
               ∨ ((Supplier part ∉ suppliers st)
                  ∧ sups = suppliers st ++ [Supplier part]))).
  { subst sups. destruct (py_in (Supplier part) (suppliers st)) eqn:Hin.
    - apply py_in_elem_of in Hin. auto.
    - split; [set_solver|]. right. split; [|done].
      intros Hin'%py_in_elem_of. congruence. }
  destruct (needGrouping (Supplier part)) eqn:Hg.
  - rewrite group_into_appends. simpl. intros [= <-]. right. exists part.
    simpl. by destruct Hlisted.
  - rewrite (ungrouped_Quantity _ _ _ _ Hp Hset Hg). simpl. intros [= <-].
    right. exists part. simpl. by destruct Hlisted.
Qed.

(** One turn of the loop raises for a component without [ref], a field
    without [name], or a [footprint] or Supplier element without text. *)
Lemma parse_component_raises (st : parsed) (f : Element) (e : exn) :
  parse_component st f = Raise e → e = KeyError ∨ e = AttributeError.
Proof.
  unfold parse_component.
  destruct (Part_init f) as [p|] eqn:Hp; simpl;
    [|intros [= <-]; by apply Part_init_raises in Hp].
  destruct (isvalid p) eqn:Hv; simpl; [|discriminate].
  destruct (isvalid_has_fields _ _ Hp Hv) as [fs ->].
  unfold setCustomFields.
  destruct (set_fields p (children fs)) as [part|] eqn:Hset; simpl;
    [|intros [= <-]; left; by apply set_fields_raises in Hset].
  rewrite all_getEqual. simpl.
  match goal with |- context [if ?b then _ else _] => destruct b end; simpl;
    [|discriminate].
  destruct (needGrouping (Supplier part)) eqn:Hg.
  - rewrite group_into_appends. discriminate.
  - rewrite (ungrouped_Quantity _ _ _ _ Hp Hset Hg). discriminate.
Qed.

Lemma parse_components_raises (fs : list Element) (st : parsed) (e : exn) :
  parse_components st fs = Raise e → e = KeyError ∨ e = AttributeError.
Proof.
  revert st. induction fs as [|f fs IH]; intros st; simpl; [discriminate|].
  destruct (parse_component st f) as [st'|] eqn:E; simpl.
  - apply IH.
  - intros [= <-]. by apply parse_component_raises in E.
Qed.

Lemma parse_component_consistent (st st' : parsed) (f : Element) :
  consistent st → parse_component st f = Ok st' → consistent st'.
Proof.
  intros (Hnd & Hparts & Hsups) [(HS & HP & r & HM)|(part & HP & HM & Hv & Hstr & Ha & Hin & HS)]%parse_component_cases;
    unfold consistent.
  - by rewrite HS, HP.
  - rewrite HP. split; [|split].
    + destruct HS as [->|[Hfresh ->]]; [done|].
      apply NoDup_app. split; [done|]. split; [|apply NoDup_singleton].
      intros x Hx ->%list_elem_of_singleton. done.
    + intros p [Hp|Hp%list_elem_of_singleton]%elem_of_app; [|by subst p].
      destruct (Hparts p Hp) as (? & ? & ? & Hl).
      split; [done|]. split; [done|]. split; [done|].
      destruct HS as [->|[_ ->]]; [done|]. apply elem_of_app. by left.
    + intros s Hs. destruct HS as [HS|[_ HS]]; rewrite HS in Hs.
      * destruct (Hsups s Hs) as (p & Hp & <-). exists p.
        split; [|done]. apply elem_of_app. by left.
      * apply elem_of_app in Hs as [Hs|Hs%list_elem_of_singleton].
        -- destruct (Hsups s Hs) as (p & Hp & <-). exists p.
           split; [|done]. apply elem_of_app. by left.
        -- subst s. exists part. split; [|done].
           apply elem_of_app. right. by apply list_elem_of_singleton.
Qed.

Lemma parse_components_consistent (fs : list Element) (st st' : parsed) :
  consistent st → parse_components st fs = Ok st' → consistent st'.
Proof.
  revert st. induction fs as [|f fs IH]; intros st Hc; simpl.
  - by intros [= <-].
  - destruct (parse_component st f) as [st1|] eqn:E; simpl; [|discriminate].
    apply IH. by apply (parse_component_consistent st _ f).
Qed.

Lemma parse_components_count (fs : list Element) (st st' : parsed) :
  parse_components st fs = Ok st' →
  (length (parts st') + length (missings st')
   = length (parts st) + length (missings st) + length fs)%nat.
Proof.
  revert st. induction fs as [|f fs IH]; intros st; simpl.
  - intros [= <-]. lia.
  - destruct (parse_component st f) as [st1|] eqn:E; simpl; [|discriminate].
    intros ->%IH.
    apply parse_component_cases in E as [(_ & -> & r & ->)|(part & -> & -> & _)];
      rewrite !length_app; simpl; lia.
Qed.

Lemma consistent_empty : consistent {| suppliers := []; parts := []; missings := [] |}.
Proof.
  split; [apply NoDup_nil_2|]. split; simpl; intros x Hx; by apply elem_of_nil in Hx.
Qed.

(** ** parseXml *)

(** X6: every component of the netlist ends in exactly one of the two
    lists: the parts and the missing references together are as many as
    the components; no part is merged into another and none is repeated. *)
Theorem parseXml_every_component_once (root : Element) (r : parsed) :
  parseXml root = Ok r →
  (length (parts r) + length (missings r) = length (findall_components root))%nat.
Proof. intros H%parse_components_count. simpl in H. lia. Qed.

Lemma parseXml_every_component_once_witness :
  (length (parts {| suppliers := [PyStr "LCSC"];
                    parts := [lcsc_resistor_part "R1"];
                    missings := [PyStr "H1"] |})
   + length (missings {| suppliers := [PyStr "LCSC"];
                         parts := [lcsc_resistor_part "R1"];
                         missings := [PyStr "H1"] |})
   = length (findall_components (xml_export [bare_component; lcsc_resistor "R1"])))%nat.
Proof.
  apply (parseXml_every_component_once
           (xml_export [bare_component; lcsc_resistor "R1"])).
  reflexivity.
Defined.

(** X7: the suppliers returned are listed once each, and they are the
    suppliers of the parts returned: a supplier is listed exactly when a
    part of the result has it. *)
Theorem parseXml_suppliers_of_parts (root : Element) (r : parsed) :
  parseXml root = Ok r →
  NoDup (suppliers r)
  ∧ ∀ s, s ∈ suppliers r ↔ ∃ p, p ∈ parts r ∧ Supplier p = s.
Proof.
  intros (Hnd & Hparts & Hsups)%(parse_components_consistent _ _ _ consistent_empty).
  split; [done|]. intros s. split; [apply Hsups|].
  intros (p & Hp & <-). by destruct (Hparts p Hp) as (_ & _ & _ & ?).
Qed.

Lemma parseXml_suppliers_of_parts_witness :
  NoDup [PyStr "LCSC"; PyStr "JLCPCB"]
  ∧ ∀ s, s ∈ [PyStr "LCSC"; PyStr "JLCPCB"]
         ↔ ∃ p, p ∈ [lcsc_resistor_part "R1"; jlcpcb_chip_part "U1"] ∧ Supplier p = s.
Proof.
  apply (parseXml_suppliers_of_parts
           (xml_export [lcsc_resistor "R1"; jlcpcb_chip "U1"])
           {| suppliers := [PyStr "LCSC"; PyStr "JLCPCB"];
              parts := [lcsc_resistor_part "R1"; jlcpcb_chip_part "U1"];
              missings := [] |}).
  reflexivity.
Defined.

(** X8: every part returned is valid (its Supplier is a text that is not
    empty) and has its required fields: a reference that is true for
    JLCPCB, a PartNumber and a SupplierRef that are true for any other
    supplier. *)
Theorem parseXml_parts_are_complete (root : Element) (r : parsed) (p : Part) :
  parseXml root = Ok r → p ∈ parts r →
  (∃ s, Supplier p = PyStr s ∧ s ≠ "")
  ∧ (Supplier p = PyStr "JLCPCB" → truthy (ref p) = true)
  ∧ (Supplier p ≠ PyStr "JLCPCB" →
       truthy (PartNumber p) = true ∧ truthy (SupplierRef p) = true).
Proof.
  intros (_ & Hparts & _)%(parse_components_consistent _ _ _ consistent_empty) Hp.
  destruct (Hparts p Hp) as (Hv & [s Hs] & Hall & _).
  rewrite all_getEqual in Hall. injection Hall as Hall. split; [|split].
  - exists s. split; [done|]. intros ->.
    unfold isvalid in Hv. rewrite Hs in Hv. discriminate.
  - intros H. by rewrite decide_True in Hall.
  - intros H. rewrite decide_False in Hall by done.
    by apply andb_true_iff in Hall.
Qed.

Lemma parseXml_parts_are_complete_witness :
  (∃ s, Supplier (lcsc_resistor_part "R1") = PyStr s ∧ s ≠ "")
  ∧ (Supplier (lcsc_resistor_part "R1") = PyStr "JLCPCB" →
       truthy (ref (lcsc_resistor_part "R1")) = true)
  ∧ (Supplier (lcsc_resistor_part "R1") ≠ PyStr "JLCPCB" →
       truthy (PartNumber (lcsc_resistor_part "R1")) = true
       ∧ truthy (SupplierRef (lcsc_resistor_part "R1")) = true).
Proof.
  apply (parseXml_parts_are_complete
           (xml_export [bare_component; lcsc_resistor "R1"])
           {| suppliers := [PyStr "LCSC"]; parts := [lcsc_resistor_part "R1"];
              missings := [PyStr "H1"] |}
           (lcsc_resistor_part "R1")).
  - reflexivity.
  - simpl. left.
Defined.

(** X9: once the netlist is parsed into a tree, the loop of [parseXml]
    over the components raises nothing but [KeyError] (a component without
    [ref], a field without [name]) and [AttributeError] (a [footprint] or
    Supplier element without text): comparing, grouping and counting the
    parts never raise. *)
Theorem component_loop_raises_only (root : Element) (e : exn) :
  parseXml root = Raise e → e = KeyError ∨ e = AttributeError.
Proof. apply parse_components_raises. Qed.

Lemma component_loop_raises_only_witness :
  parseXml (xml_export [empty_Supplier_component; lcsc_resistor "R1"])
  = Raise AttributeError
  ∧ (AttributeError = KeyError ∨ AttributeError = AttributeError).
Proof.
  split; [reflexivity|].
  apply (component_loop_raises_only
           (xml_export [empty_Supplier_component; lcsc_resistor "R1"])).
  reflexivity.
Defined.

(** ** The order of texts *)

Lemma string_compare_refl (s : string) : String.compare s s = Eq.
Proof.
  induction s as [|a s IH]; simpl; [reflexivity|].
  unfold Ascii.compare. by rewrite N.compare_refl.
Qed.

Lemma string_compare_trans (s t u : string) :
  String.compare s t = Lt → String.compare t u = Lt → String.compare s u = Lt.
Proof.
  revert t u. induction s as [|a s IH]; intros [|b t] [|c u]; simpl; try done.
  destruct (Ascii.compare a b) eqn:Eab; try done;
    destruct (Ascii.compare b c) eqn:Ebc; try done.
  - apply Ascii.compare_eq_iff in Eab as ->. rewrite Ebc. apply IH.
  - apply Ascii.compare_eq_iff in Eab as ->. by rewrite Ebc.
  - apply Ascii.compare_eq_iff in Ebc as <-. by rewrite Eab.
  - intros _ _. unfold Ascii.compare in *.
    rewrite N.compare_lt_iff in Eab, Ebc.
    assert (H : (N_of_ascii a < N_of_ascii c)%N) by lia.
    apply N.compare_lt_iff in H. by rewrite H.
Qed.

Lemma ltb_irrefl (s : string) : String.ltb s s = false.
Proof. unfold String.ltb. by rewrite string_compare_refl. Qed.

Lemma ltb_asym (s t : string) : String.ltb s t = true → String.ltb t s = false.
Proof.
  unfold String.ltb. rewrite (String.compare_antisym t s).
  by destruct (String.compare s t).
Qed.

Lemma ltb_trans (s t u : string) :
  String.ltb s t = true → String.ltb t u = true → String.ltb s u = true.
Proof.
  unfold String.ltb.
  destruct (String.compare s t) eqn:E1; try done.
  destruct (String.compare t u) eqn:E2; try done.
  by rewrite (string_compare_trans _ _ _ E1 E2).
Qed.

Lemma ltb_total (s t : string) :
  s ≠ t → String.ltb s t = false → String.ltb t s = true.
Proof.
  unfold String.ltb. rewrite (String.compare_antisym t s).
  destruct (String.compare s t) eqn:E; try done.
  by apply String.compare_eq_iff in E.
Qed.

(** ** sorted on parts *)

Lemma supplier_before_irrefl (p q : Part) :
  supplier_before p q → Supplier p ≠ Supplier q.
Proof.
  intros (s & t & Hs & Ht & Hlt) Heq. rewrite Hs, Ht in Heq.
  injection Heq as ->. rewrite ltb_irrefl in Hlt. discriminate.
Qed.

Lemma supplier_before_trans (p q r : Part) :
  supplier_before p q → supplier_before q r → supplier_before p r.
Proof.
  intros (s & t & Hs & Ht & Hst) (t' & u & Ht' & Hu & Htu).
  rewrite Ht in Ht'. injection Ht' as <-.
  exists s, u. split; [done|]. split; [done|]. by apply (ltb_trans s t u).
Qed.

(** Parts in strict order have different suppliers. *)
Lemma StronglySorted_NoDup (l : list Part) :
  StronglySorted supplier_before l → NoDup (Supplier <$> l).
Proof.
  induction 1 as [|p l Hl IH Hall]; simpl; [apply NoDup_nil_2|].
  apply NoDup_cons. split; [|done].
  intros (q & Heq & Hq)%list_elem_of_fmap.
  rewrite Forall_forall in Hall.
  by apply (supplier_before_irrefl p q (Hall q Hq)).
Qed.

(** [<] on two parts whose suppliers are texts. *)
Lemma Part_lt_str (x y : Part) (s t : string) :
  Supplier x = PyStr s → Supplier y = PyStr t →
  Part_lt x y = if decide (s = t) then Raise TypeError else Ok (String.ltb s t).
Proof.
  intros Hs Ht. destruct (decide (s = t)) as [->|Hne].
  - apply Part_lt_same_supplier. congruence.
  - by apply Part_lt_other_supplier.
Qed.

(** Placing a part in a sorted list: it raises on a part of the same
    supplier, and puts the part at its place if there is none. *)
Lemma insort_parts (x : Part) (acc : list Part) :
  is_str (Supplier x) →
  Forall (fun p => is_str (Supplier p)) acc →
  StronglySorted supplier_before acc →
  (Supplier x ∈ Supplier <$> acc → insort Part_lt x acc = Raise TypeError)
  ∧ (Supplier x ∉ Supplier <$> acc →
       ∃ acc', insort Part_lt x acc = Ok acc'
               ∧ acc' ≡ₚ x :: acc
               ∧ StronglySorted supplier_before acc').
Proof.
  intros [s Hs] Hstr Hsorted.
  induction acc as [|y ys IH]; simpl.
  { split; [by intros ?%elem_of_nil|]. intros _. exists [x].
    split; [done|]. split; [done|]. repeat constructor. }
  apply Forall_cons in Hstr as [[t Ht] Hstr].
  apply StronglySorted_cons in Hsorted as [Hy Hsorted].
  destruct (IH Hstr Hsorted) as [IHdup IHnew].
  rewrite (Part_lt_str x y s t Hs Ht).
  destruct (decide (s = t)) as [->|Hne]; simpl.
  { split; [done|]. intros Hnot. exfalso. apply Hnot.
    apply elem_of_cons. left. congruence. }
  assert (Hxy : Supplier x ≠ Supplier y) by congruence.
  destruct (String.ltb s t) eqn:Hlt.
  - assert (Hbefore : supplier_before x y) by (by exists s, t).
    split.
    + intros [?|(z & Hz & Hin)%list_elem_of_fmap]%elem_of_cons; [done|].
      rewrite Forall_forall in Hy. destruct (Hy z Hin) as (t' & u & Ht' & Hu & Hlt').
      rewrite Ht in Ht'. injection Ht' as <-.
      rewrite Hs, Hu in Hz. injection Hz as ->.
      rewrite (ltb_asym _ _ Hlt) in Hlt'. discriminate.
    + intros _. eexists. split; [reflexivity|]. split; [done|].
      apply StronglySorted_cons. split.
      * apply Forall_cons. split; [done|].
        eapply Forall_impl; [exact Hy|]. intros z Hz.
        by apply (supplier_before_trans x y z).
      * by apply StronglySorted_cons.
  - assert (Hbefore : supplier_before y x).
    { exists t, s. split; [done|]. split; [done|]. apply ltb_total; [done|done]. }
    split.
    + intros [?|Hin]%elem_of_cons; [done|]. by rewrite (IHdup Hin).
    + intros Hnot. destruct IHnew as (acc' & -> & Hperm & Hs').
      { intros Hin. apply Hnot. apply elem_of_cons. by right. }
      simpl. eexists. split; [reflexivity|]. split.
      * rewrite Hperm. apply perm_swap.
      * apply StronglySorted_cons. split; [|done].
        rewrite Hperm. by apply Forall_cons.
Qed.

Lemma sort_into_parts (l acc : list Part) :
  Forall (fun p => is_str (Supplier p)) acc →
  Forall (fun p => is_str (Supplier p)) l →
  StronglySorted supplier_before acc →
  (NoDup (Supplier <$> (acc ++ l)) →
     ∃ l', sort_into Part_lt acc l = Ok l'
           ∧ l' ≡ₚ acc ++ l
           ∧ StronglySorted supplier_before l')
  ∧ (¬ NoDup (Supplier <$> (acc ++ l)) → sort_into Part_lt acc l = Raise TypeError).
Proof.
  revert acc. induction l as [|x l IH]; intros acc Hacc Hl Hsorted.
  { rewrite app_nil_r. simpl. split.
    - intros _. by exists acc.
    - intros Hnd. destruct Hnd. by apply StronglySorted_NoDup. }
  apply Forall_cons in Hl as [Hx Hl]. simpl.
  destruct (insort_parts x acc Hx Hacc Hsorted) as [Hdup Hnew].
  destruct (decide (Supplier x ∈ Supplier <$> acc)) as [Hin|Hnot].
  - rewrite (Hdup Hin). simpl. split; [|done].
    intros Hnd. rewrite fmap_app, fmap_cons in Hnd.
    apply NoDup_app in Hnd as (_ & Hdisj & _).
    destruct (Hdisj _ Hin). apply elem_of_cons. by left.
  - destruct (Hnew Hnot) as (acc' & -> & Hperm & Hs'). simpl.
    assert (Hperm' : acc' ++ l ≡ₚ acc ++ x :: l).
    { rewrite Hperm. simpl. apply Permutation_middle. }
    assert (Hacc' : Forall (fun p => is_str (Supplier p)) acc').
    { rewrite Hperm. by apply Forall_cons. }
    destruct (IH acc' Hacc' Hl Hs') as [IHok IHdup].
    assert (Hfmap : Supplier <$> (acc' ++ l) ≡ₚ Supplier <$> (acc ++ x :: l))
      by (by rewrite Hperm').
    split.
    + intros Hnd. rewrite <- Hfmap in Hnd.
      destruct (IHok Hnd) as (l' & -> & Hl' & Hs''). exists l'.
      split; [done|]. split; [|done]. by rewrite Hl'.
    + intros Hnd. apply IHdup. intros Hnd'. apply Hnd. by rewrite <- Hfmap.
Qed.

(** X10: [sorted] on parts whose suppliers are texts: when no two parts
    have the same supplier, it returns the parts in the order of the
    names of their suppliers; when two parts have the same supplier, it
    raises [TypeError]. *)
Theorem sorted_parts_iff_distinct_suppliers (l : list Part) :
  Forall (fun p => is_str (Supplier p)) l →
  (NoDup (Supplier <$> l) →
     ∃ l', py_sorted Part_lt l = Ok l'
           ∧ l' ≡ₚ l
           ∧ StronglySorted supplier_before l')
  ∧ (¬ NoDup (Supplier <$> l) → py_sorted Part_lt l = Raise TypeError).
Proof.
  intros Hl. apply (sort_into_parts l []); [constructor|done|constructor].
Qed.

Lemma sorted_parts_iff_distinct_suppliers_witness :
  (NoDup (Supplier <$> [lcsc_resistor_part "R1"; jlcpcb_chip_part "U1"]) →
     ∃ l', py_sorted Part_lt [lcsc_resistor_part "R1"; jlcpcb_chip_part "U1"] = Ok l'
           ∧ l' ≡ₚ [lcsc_resistor_part "R1"; jlcpcb_chip_part "U1"]
           ∧ StronglySorted supplier_before l')
  ∧ (¬ NoDup (Supplier <$> [lcsc_resistor_part "R1"; jlcpcb_chip_part "U1"]) →
       py_sorted Part_lt [lcsc_resistor_part "R1"; jlcpcb_chip_part "U1"]
       = Raise TypeError).
Proof.
  apply (sorted_parts_iff_distinct_suppliers
           [lcsc_resistor_part "R1"; jlcpcb_chip_part "U1"]).
  repeat constructor; eexists; reflexivity.
Defined.

(** ** sorted on suppliers, and the run *)

Lemma insort_strs (x : pyval) (acc : list pyval) :
  is_str x → Forall is_str acc →
  ∃ acc', insort py_lt x acc = Ok acc' ∧ Forall is_str acc'.
Proof.
  intros [s ->] Hacc. induction acc as [|y ys IH]; simpl.
  - eexists. split; [reflexivity|]. repeat constructor. by exists s.
  - apply Forall_cons in Hacc as [[t ->] Hys]. simpl.
    destruct (String.ltb s t).
    + eexists. split; [reflexivity|].
      repeat (apply Forall_cons; split); [by exists s|by exists t|done].
    + destruct (IH Hys) as (acc' & -> & Hacc'). simpl.
      eexists. split; [reflexivity|]. apply Forall_cons. split; [by exists t|done].
Qed.

(** Sorting names never raises. *)
Lemma sorted_strs (l : list pyval) :
  Forall is_str l → ∃ l', py_sorted py_lt l = Ok l' ∧ Forall is_str l'.
Proof.
  unfold py_sorted. assert (Hnil : Forall is_str (@nil pyval)) by constructor.
  revert Hnil. generalize (@nil pyval) as acc.
  induction l as [|x l IH]; intros acc Hacc Hl; simpl; [eauto|].
  apply Forall_cons in Hl as [Hx Hl].
  destruct (insort_strs x acc Hx Hacc) as (acc' & -> & Hacc'). simpl.
  by apply IH.
Qed.

Lemma parseXml_strs (root : Element) (r : parsed) :
  parseXml root = Ok r →
  Forall is_str (suppliers r) ∧ Forall (fun p => is_str (Supplier p)) (parts r).
Proof.
  intros (_ & Hparts & Hsups)%(parse_components_consistent _ _ _ consistent_empty).
  split; apply Forall_forall.
  - intros s Hs. destruct (Hsups s Hs) as (p & Hp & <-).
    by destruct (Hparts p Hp) as (_ & ? & _).
  - intros p Hp. by destruct (Hparts p Hp) as (_ & ? & _).
Qed.

(** X11: when two of the parts the parser returns have the same supplier,
    the run stops with [TypeError] in [sorted], and no file is written or
    changed. *)
Theorem main_aborts_on_shared_supplier (root : Element) (path : string)
    (fs : files) (r : parsed) :
  parseXml root = Ok r →
  ¬ NoDup (Supplier <$> parts r) →
  main root path fs = (fs, Raise TypeError).
Proof.
  intros Hr Hdup. destruct (parseXml_strs _ _ Hr) as [Hsups Hparts].
  destruct (sorted_strs _ Hsups) as (ss & Hss & _).
  pose proof (proj2 (sort_into_parts (parts r) [] (Forall_nil_2 _) Hparts
                       (SSorted_nil _)) Hdup) as Hps.
  unfold main, mbind, io_bind, lift. rewrite Hr, Hss.
  unfold py_sorted. by rewrite Hps.
Qed.

Lemma main_aborts_on_shared_supplier_witness :
  main (xml_export [lcsc_resistor "R1"; lcsc_capacitor "C1"]) "board" board_files
  = (board_files, Raise TypeError).
Proof.
  apply (main_aborts_on_shared_supplier
           (xml_export [lcsc_resistor "R1"; lcsc_capacitor "C1"]) "board" board_files
           {| suppliers := [PyStr "LCSC"];
              parts := [lcsc_resistor_part "R1"; lcsc_capacitor_part "C1"];
              missings := [] |}).
  - reflexivity.
  - apply (bool_decide_unpack (¬ NoDup _)). vm_compute. exact I.
Defined.

(** ** writeCsv *)

(** The rows taken for a supplier are those of the parts at the head of
    the list that have this supplier. *)
Lemma take_rows_ok (fieldsname : list (string * string)) (supplier : pyval)
    (ps : list Part) :
  (∀ part, ∃ cells, make_row fieldsname part = Ok cells) →
  ∃ n rows,
    take_rows fieldsname supplier ps = Ok (rows, drop n ps)
    ∧ (n ≤ length ps)%nat
    ∧ Forall (fun p => Supplier p = supplier) (take n ps)
    ∧ (∀ p, ps !! n = Some p → Supplier p ≠ supplier)
    ∧ Forall2 (fun p row => make_row fieldsname p = Ok row) (take n ps) rows.
Proof.
  intros Hrow. induction ps as [|part ps IH]; simpl.
  - exists 0%nat, []. repeat split; done.
  - destruct (pyval_eqb (Supplier part) supplier) eqn:E.
    + apply pyval_eqb_eq in E.
      destruct (Hrow part) as [cells Hcells].
      destruct IH as (n & rows & -> & Hn & Hall & Hnext & Hrows).
      rewrite Hcells. simpl. exists (S n), (cells :: rows). simpl.
      split; [done|]. split; [lia|]. split; [by constructor|].
      split; [done|]. by constructor.
    + exists 0%nat, []. simpl. split; [done|]. split; [lia|].
      split; [constructor|]. split; [|constructor].
      intros p [= <-] Heq. apply pyval_eqb_eq in Heq. congruence.
Qed.

(** The turn of one supplier in the writer. *)
Lemma writeCsv_step (s : string) (rest : list pyval) (ps : list Part)
    (path : string) (fs : files) :
  ∃ n rows file,
    getOutput path (PyStr s) g_bomext = Ok file
    ∧ (n ≤ length ps)%nat
    ∧ Forall (fun p => Supplier p = PyStr s) (take n ps)
    ∧ (∀ p, ps !! n = Some p → Supplier p ≠ PyStr s)
    ∧ Forall2 (fun p row => make_row (getFields (PyStr s)) p = Ok row) (take n ps) rows
    ∧ writeCsv (PyStr s :: rest) ps path fs
      = writeCsv rest (drop n ps) path
          (<[file := map fst (getFields (PyStr s)) :: rows]> fs).
Proof.
  destruct (take_rows_ok (getFields (PyStr s)) (PyStr s) ps (make_row_ok (PyStr s)))
    as (n & rows & Htake & Hn & Hall & Hnext & Hrows).
  exists n, rows. eexists. split; [reflexivity|].
  split; [done|]. split; [done|]. split; [done|]. split; [done|].
  cbn [writeCsv]. unfold mbind, io_bind, lift. simpl getOutput. cbv beta iota.
  rewrite Htake. reflexivity.
Qed.

(** X12: for a supplier, the writer writes the file named after the
    supplier with the column names of its field table and then one row
    for each part at the head of the list that has this supplier; it
    stops at the first part of another supplier and goes on to the next
    supplier with the parts from there. *)
Theorem writeCsv_takes_leading_parts (s : string) (rest : list pyval)
    (ps : list Part) (path : string) (fs : files) :
  ∃ n rows file,
    getOutput path (PyStr s) g_bomext = Ok file
    ∧ (n ≤ length ps)%nat
    ∧ Forall (fun p => Supplier p = PyStr s) (take n ps)
    ∧ (∀ p, ps !! n = Some p → Supplier p ≠ PyStr s)
    ∧ Forall2 (fun p row => make_row (getFields (PyStr s)) p = Ok row) (take n ps) rows
    ∧ writeCsv (PyStr s :: rest) ps path fs
      = writeCsv rest (drop n ps) path
          (<[file := map fst (getFields (PyStr s)) :: rows]> fs).
Proof. apply writeCsv_step. Qed.

(** The writer on suppliers that are texts. *)
Lemma writeCsv_strs (sups : list pyval) (ps : list Part)
    (path : string) (fs : files) :
  Forall is_str sups →
  ∃ fs',
    writeCsv sups ps path fs = (fs', Ok ())
    ∧ (∀ supplier file, supplier ∈ sups →
         getOutput path supplier g_bomext = Ok file → is_Some (fs' !! file))
    ∧ (∀ p, is_Some (fs !! p) → is_Some (fs' !! p))
    ∧ (∀ p, (∀ supplier, supplier ∈ sups → getOutput path supplier g_bomext ≠ Ok p) →
         fs' !! p = fs !! p).
Proof.
  intros Hsups. revert ps fs.
  induction sups as [|supplier rest IH]; intros ps fs.
  { exists fs. split; [reflexivity|]. split; [|done].
    intros ? ? Hin. by apply elem_of_nil in Hin. }
  apply Forall_cons in Hsups as [[s ->] Hrest].
  destruct (writeCsv_step s rest ps path fs)
    as (n & rows & file & Hfile & _ & _ & _ & _ & ->).
  destruct (IH Hrest (drop n ps)
              (<[file := map fst (getFields (PyStr s)) :: rows]> fs))
    as (fs' & -> & Hout & Hkeep & Hframe).
  exists fs'. split; [reflexivity|]. split; [|split].
  - intros supplier file' [->|Hin]%elem_of_cons Hfile'.
    + rewrite Hfile in Hfile'. injection Hfile' as <-.
      apply Hkeep. rewrite lookup_insert_eq. eauto.
    + by apply (Hout supplier).
  - intros p Hp. apply Hkeep.
    destruct (decide (file = p)) as [->|Hne].
    + rewrite lookup_insert_eq. eauto.
    + by rewrite lookup_insert_ne.
  - intros p Hp. rewrite Hframe.
    + apply lookup_insert_ne. intros ->.
      apply (Hp (PyStr s)); [|done]. apply elem_of_cons. by left.
    + intros supplier Hin. apply Hp. apply elem_of_cons. by right.
Qed.

(** X13: when the writer returns, there is a BOM file for each supplier,
    even one without parts; every file that was there is still there; and
    no file but the BOM files of the suppliers has changed. *)
Theorem writeCsv_files (sups : list pyval) (ps : list Part)
    (path : string) (fs fs' : files) :
  Forall is_str sups →
  writeCsv sups ps path fs = (fs', Ok ()) →
  (∀ supplier file, supplier ∈ sups →
     getOutput path supplier g_bomext = Ok file → is_Some (fs' !! file))
  ∧ (∀ p, is_Some (fs !! p) → is_Some (fs' !! p))
  ∧ (∀ p, (∀ supplier, supplier ∈ sups → getOutput path supplier g_bomext ≠ Ok p) →
       fs' !! p = fs !! p).
Proof.
  intros Hsups Hw.
  destruct (writeCsv_strs sups ps path fs Hsups) as (fs1 & Hw1 & H).
  rewrite Hw1 in Hw. by injection Hw as <-.
Qed.

Lemma writeCsv_files_witness :
  let fs' := (writeCsv [PyStr "JLCPCB"; PyStr "LCSC"]
                [jlcpcb_chip_part "U1"; lcsc_resistor_part "R1"] "board"
                board_files).1 in
  (∀ supplier file, supplier ∈ [PyStr "JLCPCB"; PyStr "LCSC"] →
     getOutput "board" supplier g_bomext = Ok file → is_Some (fs' !! file))
  ∧ (∀ p, is_Some (board_files !! p) → is_Some (fs' !! p))
  ∧ (∀ p, (∀ supplier, supplier ∈ [PyStr "JLCPCB"; PyStr "LCSC"] →
             getOutput "board" supplier g_bomext ≠ Ok p) →
       fs' !! p = board_files !! p).
Proof.
  apply (writeCsv_files [PyStr "JLCPCB"; PyStr "LCSC"]
           [jlcpcb_chip_part "U1"; lcsc_resistor_part "R1"] "board" board_files).
  - repeat constructor; eexists; reflexivity.
  - vm_compute. reflexivity.
Defined.

(** ** The CPL rewriter: errors and files touched *)

(** The copy changes no file but its output. *)
Lemma copyCsv_frame (fs : files) (input output p : string) (hs : headers) :
  p ≠ output → (copyCsv input output hs fs).1 !! p = fs !! p.
Proof.
  intros Hne. unfold copyCsv. destruct (fs !! input); [|done].
  destruct (<[output:=[]]> fs !! input) as [[|header rows]|]; simpl;
    try by rewrite lookup_insert_ne.
  destruct hs as [items|]; simpl; [|by rewrite lookup_insert_ne].
  destruct (assign_headers items header); simpl; by rewrite !lookup_insert_ne.
Qed.

Lemma getInputs_In (path input : string) :
  In input (getInputs path) → ∃ post, input = getInput path post.
Proof. unfold getInputs. intros (post & <- & _)%in_map_iff. eauto. Qed.

(** The file the inner loop copies from is one of the candidates, is
    there, and is not the output. *)
Lemma find_input (fs : files) (path input : string) :
  List.find (isfile fs) (getInputs path) = Some input →
  isfile fs input = true ∧ input ≠ path +:+ "_Jlcpcb_CPL.csv".
Proof.
  intros [Hin Hfile]%find_some. split; [done|].
  apply getInputs_In in Hin as [post ->].
  by apply (getInput_neq_getOutput path post g_cplext (PyStr "JLCPCB")).
Qed.

Lemma rewrite_suppliers_frame (sups : list pyval) (path p : string)
    (rewrited : list (pyval * bool)) (fs : files) :
  p ≠ path +:+ "_Jlcpcb_CPL.csv" →
  (rewrite_suppliers sups path rewrited fs).1 !! p = fs !! p.
Proof.
  intros Hp. revert rewrited fs.
  induction sups as [|supplier rest IH]; intros rewrited fs; [done|].
  destruct (generateCpl supplier) eqn:Hcpl;
    [|by rewrite rewrite_suppliers_no_cpl].
  rewrite (rewrite_suppliers_cpl _ _ _ _ _ Hcpl), probe_find.
  apply generateCpl_inv in Hcpl as ->.
  destruct (List.find (isfile fs) (getInputs path)) as [input|]; [|apply IH].
  rewrite rewrite_from_JLCPCB.
  pose proof (copyCsv_frame fs input (path +:+ "_Jlcpcb_CPL.csv") p
                (HeadersDict JLCPCB_items) Hp) as Hframe.
  destruct (copyCsv _ _ _ fs) as [fs' [[]|e]]; simpl in *; [|done].
  by rewrite IH.
Qed.

(** X14: the rewriter writes to one path only, the CPL file of JLCPCB:
    every other file, the position files among them, is after the
    rewriter as it was before, whether the rewriter raises or not. *)
Theorem rewriteCsv_touches_only_cpl (sups : list pyval) (path p : string) (fs : files) :
  p ≠ path +:+ "_Jlcpcb_CPL.csv" →
  (rewriteCsv sups path fs).1 !! p = fs !! p.
Proof. apply rewrite_suppliers_frame. Qed.

Lemma rewriteCsv_touches_only_cpl_witness :
  (rewriteCsv [PyStr "LCSC"; PyStr "JLCPCB"] "board" board_files).1 !! "board-top-pos.csv"
  = board_files !! "board-top-pos.csv".
Proof.
  apply (rewriteCsv_touches_only_cpl [PyStr "LCSC"; PyStr "JLCPCB"] "board"
           "board-top-pos.csv" board_files).
  discriminate.
Defined.

Lemma generateCpl_other (supplier : pyval) :
  supplier ≠ PyStr "JLCPCB" → generateCpl supplier = false.
Proof.
  intros Hne. destruct (generateCpl supplier) eqn:E; [|done].
  by apply generateCpl_inv in E.
Qed.

(** X16: without JLCPCB among the suppliers the rewriter does nothing: it
    looks for no file, writes none, and returns the empty dict. *)
Theorem rewriteCsv_without_JLCPCB (sups : list pyval) (path : string) (fs : files) :
  PyStr "JLCPCB" ∉ sups → rewriteCsv sups path fs = (fs, Ok []).
Proof.
  intros Hnot. apply rewriteCsv_no_cpl. apply Forall_forall.
  intros supplier Hin. apply generateCpl_other. by intros ->.
Qed.

Lemma rewriteCsv_without_JLCPCB_witness :
  rewriteCsv [PyStr "LCSC"; PyStr "MOUSER"] "board" board_files = (board_files, Ok []).
Proof.
  apply (rewriteCsv_without_JLCPCB [PyStr "LCSC"; PyStr "MOUSER"] "board" board_files).
  apply (bool_decide_unpack (_ ∉ _)). vm_compute. exact I.
Defined.


(** ** The header rewritten twice *)




(** ** The paths *)

Lemma append_inj_r (p a b : string) : p +:+ a = p +:+ b → a = b.
Proof. induction p as [|c p IH]; simpl; [done|]. intros [= H]. by apply IH. Qed.

(** X19: for any prefix the three position files are three different
    paths, no output path is one of them, and the BOM and the CPL of a
    supplier are two different paths: no file is read and written, or
    written twice, under one name. *)
Theorem paths_are_distinct (path : string) :
  NoDup (getInputs path)
  ∧ (∀ supplier post out,
       getOutput path supplier post = Ok out → out ∉ getInputs path)
  ∧ (∀ supplier bom cpl,
       getOutput path supplier g_bomext = Ok bom →
       getOutput path supplier g_cplext = Ok cpl → bom ≠ cpl).
Proof.
  split; [|split].
  - rewrite getInputs_eq.
    repeat (apply NoDup_cons; split); [| |by intros ?%elem_of_nil|apply NoDup_nil_2].
    + intros [H|[H|H]%elem_of_cons]%elem_of_cons;
        [| |by apply elem_of_nil in H]; by apply (append_inj_r path) in H.
    + intros [H|H]%elem_of_cons; [|by apply elem_of_nil in H].
      by apply (append_inj_r path) in H.
  - intros supplier post out Hout Hin%list_elem_of_In.
    apply getInputs_In in Hin as [post' ->].
    by apply (getInput_neq_getOutput path post' post supplier _ Hout).
  - intros [|s|n] bom cpl; simpl; try discriminate.
    intros [= <-] [= <-] H.
    apply (append_inj_r path) in H. simpl in H. injection H as H.
    apply (append_inj_r (title s)) in H. discriminate.
Qed.

(** ** The registry, again *)

Lemma registered_None (supplier : pyval) :
  registered supplier = None
  ↔ supplier ≠ PyStr "Default" ∧ supplier ≠ PyStr "JLCPCB" ∧ supplier ≠ PyStr "LCSC".
Proof.
  split.
  - intros H. repeat split; intros ->; discriminate.
  - intros (HD & HJ & HL). destruct (registered supplier) as [p|] eqn:E; [|done].
    apply registered_inv in E as [[-> _]|[[-> _]|[-> _]]]; done.
Qed.

(** X20: what [getHeaders] does on every name: the table for JLCPCB, the
    one supplier with a CPL; [KeyError] for Default and LCSC; the empty
    tuple for anything else.  So behind the test of [generateCpl] it
    returns the table. *)
Theorem getHeaders_outcome (supplier : pyval) :
  (generateCpl supplier = true ↔ supplier = PyStr "JLCPCB")
  ∧ (getHeaders supplier = Ok (HeadersDict JLCPCB_items) ↔ supplier = PyStr "JLCPCB")
  ∧ (getHeaders supplier = Raise KeyError
     ↔ supplier = PyStr "Default" ∨ supplier = PyStr "LCSC")
  ∧ (getHeaders supplier = Ok EmptyTuple
     ↔ supplier ≠ PyStr "Default" ∧ supplier ≠ PyStr "JLCPCB"
       ∧ supplier ≠ PyStr "LCSC").
Proof.
  split; [split; [apply generateCpl_inv|by intros ->]|].
  rewrite <- registered_None. unfold getHeaders.
  destruct (registered supplier) as [p|] eqn:E.
  - apply registered_inv in E as [[-> ->]|[[-> ->]|[-> ->]]]; simpl;
      (split; [|split]); split; try done; try discriminate; auto;
      intros [H|H]; discriminate.
  - apply registered_None in E as (HD & HJ & HL).
    split; [|split]; split; try done; try discriminate.
    intros [H|H]; done.
Qed.

(** The three lists of a supplier are those of one of the three entries. *)
Lemma profile_cases (supplier : pyval) :
  ∃ p, (p = Default_profile ∨ p = JLCPCB_profile ∨ p = LCSC_profile)
       ∧ getFields supplier = fields p
       ∧ getEqual supplier = equal p
       ∧ getSorted supplier = sorted p.
Proof.
  unfold getFields, getEqual, getSorted.
  destruct (registered supplier) as [p|] eqn:E.
  - exists p. split; [|done].
    apply registered_inv in E as [[_ H]|[[_ H]|[_ H]]]; auto.
  - exists Default_profile. auto.
Qed.

(** X21: every name the registry gives for a supplier, in its field
    table, its equality keys or its sort keys, is an attribute of a part,
    so reading it never raises; and every equality key is a name the
    field table lets a custom field set. *)
Theorem registry_names_are_attributes (supplier : pyval) (name : string) (part : Part) :
  In name (map snd (getFields supplier)) ∨ In name (getEqual supplier)
  ∨ In name (getSorted supplier) →
  (∃ v, getattr part name = Ok v)
  ∧ (In name (getEqual supplier) → assignable supplier name = true).
Proof.
  unfold assignable.
  destruct (profile_cases supplier) as (p & Hp & -> & -> & ->).
  intros H. destruct Hp as [Hp|[Hp|Hp]]; subst p; simpl in H;
    repeat match type of H with
           | _ ∨ _ => destruct H as [H|H]
           | False => destruct H
           end;
    subst name; (split; [eexists; reflexivity|]);
    try reflexivity; simpl; intros Hin;
    repeat match type of Hin with
           | _ ∨ _ => destruct Hin as [Hin|Hin]
           | False => destruct Hin
           end; discriminate.
Qed.

Lemma registry_names_are_attributes_witness :
  (∃ v, getattr (lcsc_resistor_part "R1") "SupplierRef" = Ok v)
  ∧ (In "SupplierRef" (getEqual (PyStr "LCSC")) →
     assignable (PyStr "LCSC") "SupplierRef" = true).
Proof.
  apply (registry_names_are_attributes (PyStr "LCSC") "SupplierRef"
           (lcsc_resistor_part "R1")).
  right. left. vm_compute. auto.
Defined.

(** ** The Quantity of the parts returned *)

Lemma Quantity_setattr (p : Part) (name : string) (v : pyval) :
  Quantity (setattr p name v) = Quantity p ∨ Quantity (setattr p name v) = v.
Proof.
  unfold setattr.
  repeat match goal with
         | |- context [String.eqb name ?k] =>
             destruct (String.eqb_spec name k) as [->|?]
         end; simpl; auto.
Qed.

(** Reading the fields leaves the Quantity, or makes it the text of a
    field: it is not an integer other than the 1 of the constructor. *)
Lemma set_fields_Quantity (fs : list Element) (self self' : Part) :
  set_fields self fs = Ok self' →
  (∀ n, Quantity self = PyInt n → n = 1) →
  ∀ n, Quantity self' = PyInt n → n = 1.
Proof.
  revert self. induction fs as [|f fs IH]; intros self; simpl.
  - by intros [= <-].
  - destruct (subscript (attrib f) "name") as [name0|]; simpl; [|discriminate].
    intros Hset Hq. apply (IH _ Hset).
    destruct (existsb _ _); [|done].
    intros n Hn. destruct (Quantity_setattr self name0 (text f)) as [H|H];
      rewrite H in Hn; [by apply Hq|].
    destruct (text_cases f) as [Ht|[s Ht]]; rewrite Ht in Hn; discriminate.
Qed.

(** A part of the result after one turn of the loop was there before, or
    is the part of the component with its fields read. *)
Lemma parse_component_origin (st st' : parsed) (f : Element) (p : Part) :
  parse_component st f = Ok st' → p ∈ parts st' →
  p ∈ parts st
  ∨ ∃ p0 fs, Part_init f = Ok p0
             ∧ find f "fields" = Some fs
             ∧ set_fields p0 (children fs) = Ok p.
Proof.
  unfold parse_component.
  destruct (Part_init f) as [p0|] eqn:Hp; simpl; [|discriminate].
  destruct (isvalid p0) eqn:Hv; simpl; [|intros [= <-]; auto].
  destruct (setCustomFields p0 (find f "fields") (suppliers st))
    as [[[part sups] accepted]|] eqn:Hs; simpl; [|discriminate].
  apply setCustomFields_Ok in Hs as (fs & Hfs & Hset & _ & _).
  destruct accepted; simpl; [|intros [= <-]; auto].
  destruct (needGrouping (Supplier part)) eqn:Hg.
  - rewrite group_into_appends. simpl. intros [= <-]. simpl.
    intros [Hin|Hin%list_elem_of_singleton]%elem_of_app; [auto|].
    subst p. right. eauto.
  - rewrite (ungrouped_Quantity _ _ _ _ Hp Hset Hg). simpl. intros [= <-]. simpl.
    intros [Hin|Hin%list_elem_of_singleton]%elem_of_app; [auto|].
    subst p. right. eauto.
Qed.

Lemma parse_components_origin (fs : list Element) (st st' : parsed) (p : Part) :
  parse_components st fs = Ok st' → p ∈ parts st' →
  p ∈ parts st
  ∨ ∃ f p0 fds, In f fs
                ∧ Part_init f = Ok p0
                ∧ find f "fields" = Some fds
                ∧ set_fields p0 (children fds) = Ok p.
Proof.
  revert st. induction fs as [|f fs IH]; intros st; simpl.
  - intros [= <-]. auto.
  - destruct (parse_component st f) as [st1|] eqn:E; simpl; [|discriminate].
    intros Hrest Hin.
    destruct (IH _ Hrest Hin) as [Hin1|(f' & p0 & fds & Hf' & H)].
    + destruct (parse_component_origin _ _ _ _ E Hin1) as [?|(p0 & fds & H)];
        [auto|]. right. exists f, p0, fds. auto.
    + right. exists f', p0, fds. auto.
Qed.

(** X22: every part returned is the part of one component of the netlist
    with the fields of that component read, as the constructor and
    [setCustomFields] leave it: no part of the result is a merge of two
    components. *)
Theorem parseXml_parts_origin (root : Element) (r : parsed) (p : Part) :
  parseXml root = Ok r → p ∈ parts r →
  ∃ f p0 fds, In f (findall_components root)
              ∧ Part_init f = Ok p0
              ∧ find f "fields" = Some fds
              ∧ set_fields p0 (children fds) = Ok p.
Proof.
  intros Hr Hp. destruct (parse_components_origin _ _ _ _ Hr Hp) as [Hin|H]; [|done].
  by apply elem_of_nil in Hin.
Qed.

Lemma parseXml_parts_origin_witness :
  ∃ f p0 fds, In f (findall_components (xml_export [bare_component; lcsc_resistor "R1"]))
              ∧ Part_init f = Ok p0
              ∧ find f "fields" = Some fds
              ∧ set_fields p0 (children fds) = Ok (lcsc_resistor_part "R1").
Proof.
  apply (parseXml_parts_origin
           (xml_export [bare_component; lcsc_resistor "R1"])
           {| suppliers := [PyStr "LCSC"]; parts := [lcsc_resistor_part "R1"];
              missings := [PyStr "H1"] |}
           (lcsc_resistor_part "R1")).
  - reflexivity.
  - simpl. left.
Defined.

(** X23: the Quantity of a part returned is never a sum: if it is an
    integer it is 1, and it is 1 for every JLCPCB part. *)
Theorem parseXml_Quantity_never_summed (root : Element) (r : parsed) (p : Part) :
  parseXml root = Ok r → p ∈ parts r →
  (∀ n, Quantity p = PyInt n → n = 1)
  ∧ (Supplier p = PyStr "JLCPCB" → Quantity p = PyInt 1).
Proof.
  intros Hr Hp.
  destruct (parse_components_origin _ _ _ _ Hr Hp)
    as [Hin|(f & p0 & fds & _ & Hp0 & _ & Hset)]; [by apply elem_of_nil in Hin|].
  split.
  - apply (set_fields_Quantity _ _ _ Hset).
    rewrite (Part_init_Quantity _ _ Hp0). by intros n [= <-].
  - intros HJ. apply (ungrouped_Quantity _ _ _ _ Hp0 Hset). by rewrite HJ.
Qed.

Lemma parseXml_Quantity_never_summed_witness :
  (∀ n, Quantity (lcsc_resistor_part "R2") = PyInt n → n = 1)
  ∧ (Supplier (lcsc_resistor_part "R2") = PyStr "JLCPCB" →
     Quantity (lcsc_resistor_part "R2") = PyInt 1).
Proof.
  apply (parseXml_Quantity_never_summed
           (xml_export [lcsc_resistor "R1"; lcsc_resistor "R2"])
           {| suppliers := [PyStr "LCSC"];
              parts := [lcsc_resistor_part "R1"; lcsc_resistor_part "R2"];
              missings := [] |}
           (lcsc_resistor_part "R2")).
  - reflexivity.
  - simpl. right. left.
Defined.

(** ** The run and the position files *)

Lemma getInputs_not_output (path input : string) (supplier : pyval) (post out : string) :
  In input (getInputs path) → getOutput path supplier post = Ok out → input ≠ out.
Proof.
  intros [post' ->]%getInputs_In Hout.
  by apply (getInput_neq_getOutput path post' post supplier out).
Qed.

(** X24: a run never changes a position file: whatever the netlist and
    whether the run ends or raises, each of the three candidate paths
    holds after the run what it held before. *)
Theorem main_keeps_position_files (root : Element) (path input : string) (fs : files) :
  In input (getInputs path) →
  (main root path fs).1 !! input = fs !! input.
Proof.
  intros Hin. unfold main, mbind, io_bind, lift.
  destruct (parseXml root) as [r|] eqn:Hr; [|done].
  destruct (parseXml_strs _ _ Hr) as [Hsups _].
  destruct (sorted_strs _ Hsups) as (ss & -> & Hss).
  destruct (py_sorted Part_lt (parts r)) as [ps|]; [|done].
  destruct (writeCsv_strs ss ps path fs Hss) as (fs1 & -> & _ & _ & Hframe).
  assert (H1 : fs1 !! input = fs !! input).
  { apply Hframe. intros supplier _ Hout.
    by apply (getInputs_not_output path input supplier g_bomext input). }
  destruct (each_output path g_bomext (suppliers r)); [|done].
  destruct (match missings r with [] => Ok "" | _ => join ", " (missings r) end);
    [|done].
  assert (H2 : (rewriteCsv (suppliers r) path fs1).1 !! input = fs1 !! input).
  { apply rewrite_suppliers_frame.
    by apply (getInputs_not_output path input (PyStr "JLCPCB") g_cplext). }
  destruct (rewriteCsv (suppliers r) path fs1) as [fs2 [d|e]]; simpl in *;
    [|congruence].
  destruct (each_output path g_cplext (rewritten d)); simpl; congruence.
Qed.

Lemma main_keeps_position_files_witness :
  (main (xml_export [lcsc_resistor "R1"; jlcpcb_chip "U1"]) "board" board_files).1
    !! "board-top-pos.csv"
  = board_files !! "board-top-pos.csv".
Proof.
  apply (main_keeps_position_files
           (xml_export [lcsc_resistor "R1"; jlcpcb_chip "U1"]) "board"
           "board-top-pos.csv" board_files).
  simpl. auto.
Defined.

(** A reference emptied by a custom field named [ref] is [None] in the
    list of ignored references, and the report raises on it. *)
Example main_report_None_reference :
  let c := xml_comp "R5" [xml_fields [xml_field "Supplier" "lcsc";
                                      mkElement "field" [("name", "ref")] None []]] in
  parseXml (xml_export [c])
  = Ok {| suppliers := []; parts := []; missings := [PyNone] |}
  ∧ main (xml_export [c]) "board" board_files = (board_files, Raise TypeError).
Proof. split; vm_compute; reflexivity. Qed.

(** ** The CPL rewriter on the suppliers of a run *)

Lemma find_ext {A} (f g : A → bool) (l : list A) :
  (∀ x, In x l → f x = g x) → List.find f l = List.find g l.
Proof.
  induction l as [|x l IH]; intros H; simpl; [reflexivity|].
  rewrite <- (H x) by (by left). destruct (f x); [reflexivity|].
  apply IH. intros y Hy. apply H. by right.
Qed.

(** The inner loop for JLCPCB: a copy from the first candidate that is a
    file. *)
Lemma probe_JLCPCB (fs : files) (path : string) :
  probe (getInputs path) path (PyStr "JLCPCB") fs
  = match List.find (isfile fs) (getInputs path) with
    | Some input =>
        match copyCsv input (path +:+ "_Jlcpcb_CPL.csv") (HeadersDict JLCPCB_items) fs with
        | (fs', Ok _) => (fs', Ok true)
        | (fs', Raise e) => (fs', Raise e)
        end
    | None => (fs, Ok false)
    end.
Proof.
  rewrite probe_find. destruct (List.find _ _); [|reflexivity].
  apply rewrite_from_JLCPCB.
Qed.

(** A copy that succeeded, made again, changes nothing. *)
Lemma copyCsv_again (fs fs1 : files) (input output : string) (hs : headers) :
  input ≠ output →
  copyCsv input output hs fs = (fs1, Ok ()) →
  copyCsv input output hs fs1 = (fs1, Ok ()).
Proof.
  intros Hne. unfold copyCsv.
  destruct (fs !! input) as [rows0|] eqn:E; [|discriminate].
  rewrite lookup_insert_ne, E by done.
  destruct rows0 as [|header rows]; [discriminate|].
  destruct hs as [items|]; [|discriminate].
  destruct (assign_headers items header) as [header'|] eqn:Ha; [|discriminate].
  intros [= <-].
  rewrite !lookup_insert_ne, E by done.
  rewrite Ha. by rewrite !insert_insert_eq.
Qed.

(** After a copy the same candidate is the first that is a file. *)
Lemma find_after_copy (fs : files) (path input : string) (hs : headers) :
  List.find (isfile (copyCsv input (path +:+ "_Jlcpcb_CPL.csv") hs fs).1) (getInputs path)
  = List.find (isfile fs) (getInputs path).
Proof.
  apply find_ext. intros x Hx. unfold isfile. rewrite copyCsv_frame; [done|].
  by apply (getInputs_not_output path x (PyStr "JLCPCB") g_cplext).
Qed.

(** Once JLCPCB has had its turn, further turns change neither the files
    nor its status. *)
Lemma rewrite_suppliers_settled (sups : list pyval) (path : string)
    (fs : files) (found : bool) :
  probe (getInputs path) path (PyStr "JLCPCB") fs = (fs, Ok found) →
  rewrite_suppliers sups path [(PyStr "JLCPCB", found)] fs
  = (fs, Ok [(PyStr "JLCPCB", found)]).
Proof.
  intros Hprobe. induction sups as [|supplier rest IH]; [reflexivity|].
  destruct (generateCpl supplier) eqn:Hcpl.
  - rewrite (rewrite_suppliers_cpl _ _ _ _ _ Hcpl).
    apply generateCpl_inv in Hcpl as ->. rewrite Hprobe.
    destruct found; exact IH.
  - by rewrite rewrite_suppliers_no_cpl.
Qed.

(** The rewriter on suppliers with JLCPCB among them is the inner loop for
    JLCPCB, run on the files as they are at the start. *)
Lemma rewriteCsv_JLCPCB (sups : list pyval) (path : string) (fs : files) :
  PyStr "JLCPCB" ∈ sups →
  rewriteCsv sups path fs
  = match probe (getInputs path) path (PyStr "JLCPCB") fs with
    | (fs', Ok found) => (fs', Ok [(PyStr "JLCPCB", found)])
    | (fs', Raise e) => (fs', Raise e)
    end.
Proof.
  unfold rewriteCsv. induction sups as [|supplier rest IH]; intros Hin.
  { by apply elem_of_nil in Hin. }
  destruct (generateCpl supplier) eqn:Hcpl.
  - rewrite (rewrite_suppliers_cpl _ _ _ _ _ Hcpl).
    apply generateCpl_inv in Hcpl as ->.
    pose proof (probe_JLCPCB fs path) as Hprobe.
    destruct (List.find (isfile fs) (getInputs path)) as [input|] eqn:Hfind.
    + destruct (find_input _ _ _ Hfind) as [_ Hne].
      pose proof (find_after_copy fs path input (HeadersDict JLCPCB_items)) as Hfind'.
      destruct (copyCsv input (path +:+ "_Jlcpcb_CPL.csv")
                  (HeadersDict JLCPCB_items) fs) as [fs1 [[]|e]] eqn:Hcopy;
        rewrite Hprobe; [|reflexivity].
      apply rewrite_suppliers_settled. rewrite probe_JLCPCB.
      cbn [fst] in Hfind'. rewrite Hfind', Hfind.
      by rewrite (copyCsv_again _ _ _ _ _ Hne Hcopy).
    + rewrite Hprobe. by apply rewrite_suppliers_settled.
  - rewrite rewrite_suppliers_no_cpl by done. apply IH.
    apply elem_of_cons in Hin as [Heq|Hin]; [|done].
    subst supplier. vm_compute in Hcpl. discriminate.
Qed.

(** C7: for suppliers with one that has a CPL among them, the candidates
    are the three paths all-pos, top-pos, bottom-pos in this order; the
    rewriter copies from the first of them that is a file, whatever the
    later ones are, and from all-pos when that one is a file; with none of
    them it writes nothing and the status of the supplier is false. *)
Theorem rewriteCsv_first_existing (fs : files) (path : string)
    (sups : list pyval) (supplier : pyval) :
  supplier ∈ sups →
  generateCpl supplier = true →
  getInputs path
  = [path +:+ "-all-pos.csv"; path +:+ "-top-pos.csv"; path +:+ "-bottom-pos.csv"]
  ∧ (∀ input, List.find (isfile fs) (getInputs path) = Some input →
       ∃ output hs,
         getOutput path supplier g_cplext = Ok output
         ∧ getHeaders supplier = Ok hs
         ∧ rewriteCsv sups path fs
           = match copyCsv input output hs fs with
             | (fs', Ok _) => (fs', Ok [(supplier, true)])
             | (fs', Raise e) => (fs', Raise e)
             end)
  ∧ (List.find (isfile fs) (getInputs path) = None →
       rewriteCsv sups path fs = (fs, Ok [(supplier, false)]))
  ∧ (isfile fs (path +:+ "-all-pos.csv") = true →
       List.find (isfile fs) (getInputs path) = Some (path +:+ "-all-pos.csv")).
Proof.
  intros Hin Hcpl. split; [reflexivity|].
  pose proof (generateCpl_inv _ Hcpl) as ->.
  rewrite (rewriteCsv_JLCPCB _ _ _ Hin), probe_JLCPCB. split; [|split].
  - intros input ->. eexists _, _. split; [reflexivity|]. split; [reflexivity|].
    by destruct (copyCsv _ _ _ fs) as [fs' [[]|e]].
  - by intros ->.
  - intros Hall. rewrite getInputs_eq. simpl. by rewrite Hall.
Qed.

Lemma rewriteCsv_first_existing_witness :
  getInputs "board"
  = ["board-all-pos.csv"; "board-top-pos.csv"; "board-bottom-pos.csv"]
  ∧ (∀ input, List.find (isfile board_files) (getInputs "board") = Some input →
       ∃ output hs,
         getOutput "board" (PyStr "JLCPCB") g_cplext = Ok output
         ∧ getHeaders (PyStr "JLCPCB") = Ok hs
         ∧ rewriteCsv [PyStr "LCSC"; PyStr "JLCPCB"; PyStr "MOUSER"] "board" board_files
           = match copyCsv input output hs board_files with
             | (fs', Ok _) => (fs', Ok [(PyStr "JLCPCB", true)])
             | (fs', Raise e) => (fs', Raise e)
             end)
  ∧ (List.find (isfile board_files) (getInputs "board") = None →
       rewriteCsv [PyStr "LCSC"; PyStr "JLCPCB"; PyStr "MOUSER"] "board" board_files
       = (board_files, Ok [(PyStr "JLCPCB", false)]))
  ∧ (isfile board_files "board-all-pos.csv" = true →
       List.find (isfile board_files) (getInputs "board") = Some "board-all-pos.csv").
Proof.
  apply (rewriteCsv_first_existing board_files "board"
           [PyStr "LCSC"; PyStr "JLCPCB"; PyStr "MOUSER"] (PyStr "JLCPCB")).
  - apply (bool_decide_unpack (_ ∈ _)). vm_compute. exact I.
  - reflexivity.
Defined.

(** With an all-pos and a top-pos file, the all-pos file is the one copied. *)
Example rewriteCsv_all_pos_first :
  let fs := <["board-all-pos.csv" := bottom_pos_rows]> board_files in
  List.find (isfile fs) (getInputs "board") = Some "board-all-pos.csv"
  ∧ (rewriteCsv [PyStr "LCSC"; PyStr "JLCPCB"] "board" fs).2
    = Ok [(PyStr "JLCPCB", true)]
  ∧ (rewriteCsv [PyStr "LCSC"; PyStr "JLCPCB"] "board" fs).1 !! "board_Jlcpcb_CPL.csv"
    = Some [["Designator"; "Val"; "Package"; "Mid X"; "Mid Y"; "Rotation"; "Layer"];
            ["C9"; "100n"; "C_0603"; "11.0"; "21.0"; "0.0"; "bottom"]].
Proof. repeat split; vm_compute; reflexivity. Qed.

(** X17: a position file without rows is not passed over for the next
    candidate: when the first candidate that is there is empty, the
    rewriter raises [StopIteration] and leaves an empty CPL file. *)
Theorem rewriteCsv_empty_position_file (fs : files) (path input : string)
    (sups : list pyval) :
  PyStr "JLCPCB" ∈ sups →
  List.find (isfile fs) (getInputs path) = Some input →
  fs !! input = Some [] →
  rewriteCsv sups path fs
  = (<[path +:+ "_Jlcpcb_CPL.csv" := []]> fs, Raise StopIteration).
Proof.
  intros Hin Hfind Hempty.
  rewrite (rewriteCsv_JLCPCB _ _ _ Hin), probe_JLCPCB, Hfind.
  destruct (find_input _ _ _ Hfind) as [_ Hne].
  unfold copyCsv. rewrite Hempty, lookup_insert_ne, Hempty by done. reflexivity.
Qed.

Lemma rewriteCsv_empty_position_file_witness :
  rewriteCsv [PyStr "JLCPCB"; PyStr "LCSC"] "board"
    (<["board-all-pos.csv" := []]> board_files)
  = (<["board" +:+ "_Jlcpcb_CPL.csv" := []]> (<["board-all-pos.csv" := []]> board_files),
     Raise StopIteration).
Proof.
  apply (rewriteCsv_empty_position_file (<["board-all-pos.csv" := []]> board_files)
           "board" "board-all-pos.csv" [PyStr "JLCPCB"; PyStr "LCSC"]).
  - apply (bool_decide_unpack (_ ∈ _)). vm_compute. exact I.
  - reflexivity.
  - reflexivity.
Defined.
